(** * json-deepl-translate: the tree translator of [main.py]

    A shallow embedding of [iterate_translate], [translate_string],
    [get_strings_from_file], [save_results_file] and the part of [main]
    that seeds the process cache, followed by the properties of the
    recursive translation engine.

    Python values produced by [json.load] are modelled by the type [json];
    a [dict] is an association list in insertion order (Python dictionaries
    have unique keys, see [wf]); a [str] is held by the bytes of its UTF-8
    encoding, and [len] counts its code points.  Effects are modelled by a
    state and exception monad: the state holds the module global
    [GLOBAL_CACHE] and the chronological trace of observable events
    (sleeps, requests sent to the translation service, lines printed; the
    standard output and the files are taken to accept every text).  The
    translation service, the formatting [str] of a value that is not a
    string, the durations [time.sleep] rejects and the key of the service
    found in the environment are variables of the section [Program].

    Layout: values and Python operators; the monad and the two loops;
    observations and predicates used in the statements; file names, the
    console and the functions of the command line; the program; its
    properties; the properties of the command line; the properties at
    concrete runs. *)

From Stdlib Require Import List String Ascii ZArith Bool Lia.
From Stdlib Require Import DecimalString.
From Stdlib Require Import Floats.SpecFloat.
Import ListNotations.
Open Scope string_scope.
Open Scope list_scope.

Set Warnings "-register-all".

(** ** Values *)

(** What [json.load] returns: [None], [bool], [int], [float], [str],
    [list], and [dict] with [str] keys. *)
Inductive json : Type :=
| JNull
| JBool (b : bool)
| JInt (n : Z)
| JFloat (f : spec_float)
| JStr (s : string)
| JList (l : list json)
| JDict (d : list (string * json)).

(** Induction over [json] that also gives the hypothesis for the elements of
    lists and the values of dictionaries. *)
Section JsonInduction.
Variable P : json -> Prop.
Hypothesis HNull : P JNull.
Hypothesis HBool : forall b, P (JBool b).
Hypothesis HInt : forall n, P (JInt n).
Hypothesis HFloat : forall f, P (JFloat f).
Hypothesis HStr : forall s, P (JStr s).
Hypothesis HList : forall l, Forall P l -> P (JList l).
Hypothesis HDict : forall d, Forall (fun kv => P (snd kv)) d -> P (JDict d).

Fixpoint json_nested_ind (v : json) : P v :=
  match v with
  | JNull => HNull
  | JBool b => HBool b
  | JInt n => HInt n
  | JFloat f => HFloat f
  | JStr s => HStr s
  | JList l =>
      HList l ((fix elems (l : list json) : Forall P l :=
                match l with
                | [] => Forall_nil P
                | x :: xs => Forall_cons x (json_nested_ind x) (elems xs)
                end) l)
  | JDict d =>
      HDict d ((fix entries (d : list (string * json))
                : Forall (fun kv => P (snd kv)) d :=
                match d with
                | [] => Forall_nil _
                | kv :: rest =>
                    Forall_cons kv (json_nested_ind (snd kv)) (entries rest)
                end) d)
  end.
End JsonInduction.

(** ** Python dictionaries as association lists *)

Definition keys (d : list (string * json)) : list string := map fst d.

(** [d.get(key)]: the value stored at [key], if any. *)
Fixpoint dict_get (d : list (string * json)) (key : string) : option json :=
  match d with
  | [] => None
  | (k, v) :: rest => if String.eqb key k then Some v else dict_get rest key
  end.

(** [d[key] = v]: an existing key keeps its position, a new key goes last. *)
Fixpoint dict_setitem (d : list (string * json)) (key : string) (v : json)
  : list (string * json) :=
  match d with
  | [] => [(key, v)]
  | (k, w) :: rest =>
      if String.eqb key k then (k, v) :: rest
      else (k, w) :: dict_setitem rest key v
  end.

(** [d.pop(key, None)]. *)
Fixpoint dict_pop (d : list (string * json)) (key : string)
  : list (string * json) :=
  match d with
  | [] => []
  | (k, w) :: rest =>
      if String.eqb key k then rest else (k, w) :: dict_pop rest key
  end.

(** [key in l] for a list of strings (the [skip] and [keep] lists). *)
Definition str_in (key : string) (l : list string) : bool :=
  existsb (String.eqb key) l.

Fixpoint nodupb (l : list string) : bool :=
  match l with
  | [] => true
  | k :: rest => negb (str_in k rest) && nodupb rest
  end.

(** A Python dictionary never holds a key twice; [wf] says so for every
    dictionary of a value. *)
Fixpoint wf (v : json) : bool :=
  match v with
  | JList l => forallb wf l
  | JDict d => nodupb (map fst d) && forallb (fun kv => wf (snd kv)) d
  | _ => true
  end.

(** ** The Python operators the code applies to loaded values *)

Inductive exn : Type :=
| KeyError (key : json)
| TypeError
| IndexError
| AttributeError
| ValueError
| OverflowError
| URLError
| HTTPError (status : Z)
| JSONDecodeError
| UnicodeEncodeError.

Inductive outcome (A : Type) : Type :=
| Ok (a : A)
| Raise (e : exn).
Arguments Ok {A} a.
Arguments Raise {A} e.

(** A Python [str] is a sequence of code points.  A [string] holds the
    bytes of its UTF-8 encoding; a surrogate (which [json.load] returns
    for an unpaired [\udXXX] escape, and the decoding of the command line
    and of the environment for a byte that is not UTF-8) is written in the
    three bytes the scheme gives a code point of its size: [ED], then a
    byte from [A0] to [BF], then a continuation byte. *)

(** A byte [10xxxxxx], which continues a code point. *)
Definition is_continuation (c : ascii) : bool :=
  match c with
  | Ascii _ _ _ _ _ _ b6 b7 => b7 && negb b6
  end.

(** A byte [101xxxxx], from [A0] to [BF]. *)
Definition is_upper_continuation (c : ascii) : bool :=
  match c with
  | Ascii _ _ _ _ _ b5 b6 b7 => b7 && negb b6 && b5
  end.

(** [len(s)]: the number of code points of [s]. *)
Fixpoint str_len (s : string) : nat :=
  match s with
  | EmptyString => 0
  | String c rest => (if is_continuation c then 0 else 1) + str_len rest
  end.

(** The continuation bytes [s] starts with. *)
Fixpoint continuation_bytes (s : string) : string :=
  match s with
  | EmptyString => EmptyString
  | String c rest =>
      if is_continuation c then String c (continuation_bytes rest)
      else EmptyString
  end.

(** [s] holds a surrogate: the byte [ED] followed by one from [A0] to
    [BF]. *)
Fixpoint has_surrogate (s : string) : bool :=
  match s with
  | EmptyString => false
  | String c rest =>
      match rest with
      | EmptyString => false
      | String c' _ =>
          (Ascii.eqb c "237" && is_upper_continuation c')
          || has_surrogate rest
      end
  end.

(** [s.encode("utf-8")]: the bytes of [s]; a surrogate cannot be
    encoded. *)
Definition str_encode (s : string) : outcome string :=
  if has_surrogate s then Raise UnicodeEncodeError else Ok s.

(** [parse.urlencode(query).encode()] for the values of a query that are
    all [str]: each value is quoted in the order of the dictionary, which
    encodes it.  The bytes of the result are not kept: the translation
    service is given the fields themselves. *)
Fixpoint urlencode (values : list string) : outcome unit :=
  match values with
  | [] => Ok tt
  | v :: rest =>
      match str_encode v with
      | Ok _ => urlencode rest
      | Raise e => Raise e
      end
  end.

(** [bool(v)], as tested by [existing and ...]. *)
Definition truthy (v : json) : bool :=
  match v with
  | JNull => false
  | JBool b => b
  | JInt n => negb (Z.eqb n 0)
  | JFloat (S754_zero _) => false
  | JFloat _ => true
  | JStr s => negb (String.eqb s "")
  | JList l => match l with [] => false | _ => true end
  | JDict d => match d with [] => false | _ => true end
  end.

(** [needle in hay] for two strings: substring test. *)
Fixpoint str_contains (needle hay : string) : bool :=
  String.prefix needle hay ||
  match hay with
  | EmptyString => false
  | String _ rest => str_contains needle rest
  end.

Definition is_str (key : string) (v : json) : bool :=
  match v with JStr s => String.eqb key s | _ => false end.

(** [key in v] for a [str] key. *)
Definition py_in (key : string) (v : json) : outcome bool :=
  match v with
  | JDict d => Ok (str_in key (keys d))
  | JList l => Ok (existsb (is_str key) l)
  | JStr s => Ok (str_contains key s)
  | _ => Raise TypeError
  end.

(** [v[key]] for a [str] key. *)
Definition py_getitem (v : json) (key : string) : outcome json :=
  match v with
  | JDict d =>
      match dict_get d key with
      | Some w => Ok w
      | None => Raise (KeyError (JStr key))
      end
  | _ => Raise TypeError
  end.

(** [v[0]]. *)
Definition py_getitem0 (v : json) : outcome json :=
  match v with
  | JList (x :: _) => Ok x
  | JList [] => Raise IndexError
  | JStr (String c rest) => Ok (JStr (String c (continuation_bytes rest)))
  | JStr EmptyString => Raise IndexError
  | JDict _ => Raise (KeyError (JInt 0))
  | _ => Raise TypeError
  end.

(** [len(v)]. *)
Definition py_len (v : json) : outcome nat :=
  match v with
  | JList l => Ok (List.length l)
  | JDict d => Ok (List.length d)
  | JStr s => Ok (str_len s)
  | _ => Raise TypeError
  end.

Definition is_None (v : json) : bool :=
  match v with JNull => true | _ => false end.

(** [v != ""]. *)
Definition ne_empty_str (v : json) : bool :=
  match v with JStr EmptyString => false | _ => true end.

(** ** Events and state *)

(** What [request.urlopen(req)] gives: a response object, of which the
    code reads [response.status] and [json.loads(response.read())] ([None]
    here when the body is not JSON), or an exception.  With the default
    opener of [urllib] the statuses returned are those from 200 to 299;
    for the others [urlopen] raises [HTTPError], and [URLError] when the
    service cannot be reached. *)
Inductive http_result : Type :=
| Response (status : Z) (body : option json)
| Raised (e : exn).

Inductive event : Type :=
| Sleep (seconds : spec_float)
| Request (target_lang text : string)
| PrintUsingCache (text : string) (res : json)
| PrintErrorStatus (text : string) (status : Z)
| PrintErrorEmpty (text : string) (response_data : json)
| PrintMoreThanOne (text : string) (translations : json)
| PrintResultsSaved.

Record state : Type := mkState {
  GLOBAL_CACHE : json;
  trace : list event
}.

Definition M (A : Type) : Type := state -> outcome A * state.

Definition ret {A} (a : A) : M A := fun st => (Ok a, st).

Definition bind {A B} (m : M A) (k : A -> M B) : M B :=
  fun st =>
    match m st with
    | (Ok a, st') => k a st'
    | (Raise e, st') => (Raise e, st')
    end.

Definition raise {A} (e : exn) : M A := fun st => (Raise e, st).

Definition lift {A} (o : outcome A) : M A := fun st => (o, st).

Definition emit (e : event) : M unit :=
  fun st => (Ok tt, mkState (GLOBAL_CACHE st) (trace st ++ [e])).

Definition get_global_cache : M json := fun st => (Ok (GLOBAL_CACHE st), st).

Definition get_trace : M (list event) := fun st => (Ok (trace st), st).

Declare Scope py_scope.
Delimit Scope py_scope with py.
Notation "x <- m ;; k" := (bind m (fun x => k))
  (at level 61, m at next level, right associativity) : py_scope.
Notation "m ;;; k" := (bind m (fun _ => k))
  (at level 61, right associativity) : py_scope.
Open Scope py_scope.

(** [[f(x) for x in l]]: elements are evaluated left to right. *)
Definition list_comprehension {A B} (f : A -> M B) : list A -> M (list B) :=
  fix go (l : list A) : M (list B) :=
    match l with
    | [] => ret []
    | x :: xs => y <- f x ;; ys <- go xs ;; ret (y :: ys)
    end.

(** [for key, value in items: res = step(key, value, res)]. *)
Definition for_items (step : string -> json -> list (string * json)
                             -> M (list (string * json)))
  : list (string * json) -> list (string * json) -> M (list (string * json)) :=
  fix go (items res : list (string * json)) : M (list (string * json)) :=
    match items with
    | [] => ret res
    | (key, value) :: rest => res' <- step key value res ;; go rest res'
    end.

(** ** Observations on traces and trees *)

(** The number of live requests sent for [text]. *)
Fixpoint live_calls (text : string) (t : list event) : nat :=
  match t with
  | [] => 0
  | Request _ s :: rest =>
      (if String.eqb text s then 1 else 0) + live_calls text rest
  | _ :: rest => live_calls text rest
  end.

Definition json_eqb_leaf (a b : json) : bool :=
  match a, b with
  | JNull, JNull => true
  | JBool x, JBool y => Bool.eqb x y
  | JInt x, JInt y => Z.eqb x y
  | JFloat x, JFloat y =>
      match x, y with
      | S754_zero s, S754_zero s' => Bool.eqb s s'
      | S754_infinity s, S754_infinity s' => Bool.eqb s s'
      | S754_nan, S754_nan => true
      | S754_finite s m e, S754_finite s' m' e' =>
          Bool.eqb s s' && Pos.eqb m m' && Z.eqb e e'
      | _, _ => false
      end
  | _, _ => false
  end.

(** [same_shape a b]: [b] has the keys of [a] in the same order, arrays of
    the same length, the same non-string leaves; a string of [a] faces a
    string of [b]. *)
Fixpoint same_shape (a b : json) {struct a} : bool :=
  match a, b with
  | JStr _, JStr _ => true
  | JList l, JList l' =>
      (fix elems (l l' : list json) : bool :=
         match l, l' with
         | [], [] => true
         | x :: xs, y :: ys => same_shape x y && elems xs ys
         | _, _ => false
         end) l l'
  | JDict d, JDict d' =>
      (fix entries (d d' : list (string * json)) : bool :=
         match d, d' with
         | [], [] => true
         | (k, x) :: xs, (k', y) :: ys =>
             String.eqb k k' && same_shape x y && entries xs ys
         | _, _ => false
         end) d d'
  | _, _ => json_eqb_leaf a b
  end.

(** Test doubles for the translation service, used in the examples. *)
Definition success (text : string) : http_result :=
  Response 200
    (Some (JDict [("translations", JList [JDict [("text", JStr text)]])])).

Definition spanish (_ : list event) (_ : string) (text : string)
  : http_result :=
  if String.eqb text "Hello" then success "Hola"
  else if String.eqb text "World" then success "Mundo"
  else success text.

Definition no_str (_ : json) : string := "".

Definition accepted (_ : spec_float) : option exn := None.

Definition auth_key : option string := Some "0000:fx".

(** Texts outside ASCII, by their bytes: the letter U+00E9, one code point
    in two bytes; the ideographs U+4E2D U+6587, two code points of three
    bytes each; the surrogate U+DC00 on its own. *)
Definition e_acute : string := String "195" (String "169" "").

Definition zhongwen : string :=
  String "228" (String "184" (String "173"
    (String "230" (String "150" (String "135" ""))))).

Definition lone_surrogate : string :=
  String "237" (String "176" (String "128" "")).

(** A service that refuses ["Hello"] with the status 456 (quota exceeded),
    for which [urlopen] raises, and translates the rest. *)
Definition refusing (_ : list event) (_ : string) (text : string)
  : http_result :=
  if String.eqb text "Hello" then Raised (HTTPError 456)
  else success "Mundo".

Definition off : spec_float := S754_zero false.

Definition fresh : state := mkState (JDict []) [].

(** ** Predicates used in the statements *)

(** A computation that leaves the process cache as it found it. *)
Definition keeps_cache {A} (m : M A) : Prop :=
  forall st, GLOBAL_CACHE (snd (m st)) = GLOBAL_CACHE st.

(** Two runs with the same effects: the same final state (process cache,
    requests sent, sleeps, lines printed) and the same exception if any;
    the values returned may differ. *)
Definition same_effect {A B} (p : outcome A * state) (q : outcome B * state)
  : Prop :=
  snd p = snd q /\
  match fst p, fst q with
  | Ok _, Ok _ => True
  | Raise e, Raise e' => e = e'
  | _, _ => False
  end.

(** A path from the root of a document down to a subtree: through the value
    of a key of an object, or through the element of a one-element array. *)
Inductive path_step : Type :=
| Key (k : string)
| Elem.

(** [nest path t]: the document that holds [t] at the end of [path]. *)
Fixpoint nest (path : list path_step) (t : json) : json :=
  match path with
  | [] => t
  | Key k :: rest => JDict [(k, nest rest t)]
  | Elem :: rest => JList [nest rest t]
  end.

(** [key in g] evaluates to [False]. *)
Definition not_in (key : string) (g : json) : bool :=
  match py_in key g with
  | Ok false => true
  | _ => false
  end.

(** The step is one that [iterate_translate] recurses through: a key that
    is in neither policy list and not in the process cache [g], or an
    array element. *)
Definition recursed (skip keep : list string) (g : json) (p : path_step)
  : bool :=
  match p with
  | Key k => negb (str_in k skip) && negb (str_in k keep) && not_in k g
  | Elem => true
  end.

(** The lookup [GLOBAL_CACHE[text]] of [translate_string] is not made
    ([cache] is [None]) or raises [KeyError], so that the service is
    called. *)
Definition cache_misses (cache : option bool) (g : json) (text : string)
  : bool :=
  match cache with
  | None => true
  | Some _ =>
      match py_getitem g text with
      | Raise (KeyError _) => true
      | _ => false
      end
  end.

(** The translation service signals failure: the status of the response is
    not 200, or it is 200 and ["translations"] is not found in the decoded
    body.  The result is the line printed for it. *)
Definition failure_report (text : string) (r : http_result) : option event :=
  match r with
  | Response status body =>
      if negb (Z.eqb status 200) then Some (PrintErrorStatus text status)
      else
        match body with
        | Some response_data =>
            if not_in "translations" response_data
            then Some (PrintErrorEmpty text response_data)
            else None
        | None => None
        end
  | Raised _ => None
  end.

(** Every text of [data] that is not empty satisfies [p]. *)
Fixpoint all_texts (p : string -> bool) (data : json) {struct data} : bool :=
  match data with
  | JStr s => String.eqb s "" || p s
  | JList l => forallb (all_texts p) l
  | JDict d => forallb (fun kv => all_texts p (snd kv)) d
  | _ => true
  end.

(** The query is encoded without an exception. *)
Definition encoded (values : list string) : bool :=
  match urlencode values with
  | Ok _ => true
  | Raise _ => false
  end.

(** A service that answers ["Hello"] with status 204, ["World"] with a
    body without translations, and translates the rest. *)
Definition unreliable (_ : list event) (_ : string) (text : string)
  : http_result :=
  if String.eqb text "Hello" then Response 204 None
  else if String.eqb text "World" then
    Response 200 (Some (JDict [("message", JStr "Quota exceeded")]))
  else success "Bien".

(** A service that signals a failure for every request: the status 204 for
    ["Hello"], a body without translations for the rest. *)
Definition failing (_ : list event) (_ : string) (text : string)
  : http_result :=
  if String.eqb text "Hello" then Response 204 None
  else Response 200 (Some (JDict [("message", JStr "Quota exceeded")])).

(** No entry that the traversal of [data] reaches is replaced from outside
    the source: each key is in the skip list (and its value copied), or the
    keep rule cannot apply to it (not in the keep list, or no existing
    output document), it is not in the process cache [g], and the same
    holds inside its value. *)
Fixpoint no_substitution (skip keep : list string) (existing g : json)
         (data : json) {struct data} : bool :=
  match data with
  | JDict d =>
      forallb (fun kv =>
                 str_in (fst kv) skip ||
                 (negb (str_in (fst kv) keep && truthy existing) &&
                  not_in (fst kv) g &&
                  no_substitution skip keep existing g (snd kv))) d
  | JList l => forallb (no_substitution skip keep existing g) l
  | _ => true
  end.

Definition is_JStr (v : json) : bool :=
  match v with JStr _ => true | _ => false end.

(** The lookups [GLOBAL_CACHE[text]] of [translate_string], when they are
    made, can only return strings. *)
Definition text_cache_ok (cache : option bool) (g : json) : bool :=
  match cache, g with
  | Some _, JDict c => forallb (fun kv => is_JStr (snd kv)) c
  | _, _ => true
  end.

(** ** Pacing of the requests *)

Definition float_eqb (x y : spec_float) : bool :=
  match x, y with
  | S754_zero s, S754_zero s' => Bool.eqb s s'
  | S754_infinity s, S754_infinity s' => Bool.eqb s s'
  | S754_nan, S754_nan => true
  | S754_finite s m e, S754_finite s' m' e' =>
      Bool.eqb s s' && Pos.eqb m m' && Z.eqb e e'
  | _, _ => false
  end.

(** [paced sleep tl t]: in the events [t] every request is for the target
    [tl] and comes right after a sleep of [sleep] seconds; a sleep is
    followed by its request, or it is the last event; printed lines may
    stand anywhere between these pairs. *)
Fixpoint paced (sleep : spec_float) (tl : string) (t : list event) : bool :=
  match t with
  | [] => true
  | Sleep d :: rest =>
      float_eqb d sleep &&
      match rest with
      | [] => true
      | Request l _ :: rest' => String.eqb l tl && paced sleep tl rest'
      | _ => false
      end
  | Request _ _ :: _ => false
  | _ :: rest => paced sleep tl rest
  end.

(** An event that is a printed line. *)
Definition is_print (e : event) : bool :=
  match e with
  | Sleep _ | Request _ _ => false
  | _ => true
  end.

(** The last event of [t] is a sleep: its request has not been sent. *)
Fixpoint sleep_pending (t : list event) : bool :=
  match t with
  | [] => false
  | [Sleep _] => true
  | _ :: rest => sleep_pending rest
  end.

(** A computation that only appends events, and appends them paced; it
    leaves a sleep without its request only when it raises
    [UnicodeEncodeError]. *)
Definition stays_paced (sleep : spec_float) (tl : string) {A} (m : M A)
  : Prop :=
  forall st,
    exists t', trace (snd (m st)) = trace st ++ t' /\
               paced sleep tl t' = true /\
               (sleep_pending t' = true ->
                fst (m st) = Raise UnicodeEncodeError).

(** [--nocache k1 k2 ...] applied to a cache that is a dictionary. *)
Definition pop_keys (c : list (string * json)) (nocache : list string)
  : list (string * json) :=
  fold_left dict_pop nocache c.

(** ** File names and the console *)

(** [s.endswith(suffix)]. *)
Fixpoint ends_with (suffix s : string) : bool :=
  String.eqb s suffix ||
  match s with
  | EmptyString => false
  | String _ rest => ends_with suffix rest
  end.

Definition newline : string := String (ascii_of_nat 10) EmptyString.

(** [re.search(r"\.json$", file)]: [$] matches at the end of the string and
    before a newline that ends it. *)
Definition json_suffix (file : string) : bool :=
  ends_with ".json" file || ends_with (".json" ++ newline)%string file.

(** [find_files]: [listing] is what [os.listdir(path)] returns. *)
Definition find_files (listing : list string) : list string :=
  filter json_suffix listing.

Fixpoint has_char (c : ascii) (s : string) : bool :=
  match s with
  | EmptyString => false
  | String c' rest => Ascii.eqb c' c || has_char c rest
  end.

(** [p[:i], p[i:]] for [i = p.rfind("/") + 1], when [p] has a slash. *)
Fixpoint split_at_last_slash (p : string) : option (string * string) :=
  match p with
  | EmptyString => None
  | String c rest =>
      match split_at_last_slash rest with
      | Some (head, tail) => Some (String c head, tail)
      | None =>
          if Ascii.eqb c "/" then Some (String c EmptyString, rest) else None
      end
  end.

(** [head == "/" * len(head)]. *)
Fixpoint all_slashes (s : string) : bool :=
  match s with
  | EmptyString => true
  | String c rest => Ascii.eqb c "/" && all_slashes rest
  end.

(** [head.rstrip("/")]. *)
Fixpoint rstrip_slashes (s : string) : string :=
  match s with
  | EmptyString => EmptyString
  | String c rest =>
      if all_slashes s then EmptyString else String c (rstrip_slashes rest)
  end.

(** [os.path.basename], [os.path.dirname] and [os.path.join] (of two
    components) of [posixpath]. *)
Definition os_path_basename (p : string) : string :=
  match split_at_last_slash p with
  | Some (_, tail) => tail
  | None => p
  end.

Definition os_path_dirname (p : string) : string :=
  match split_at_last_slash p with
  | Some (head, _) => if all_slashes head then head else rstrip_slashes head
  | None => EmptyString
  end.

Definition os_path_join (a b : string) : string :=
  if String.prefix "/" b then b
  else if String.eqb a "" || ends_with "/" a then (a ++ b)%string
  else (a ++ "/" ++ b)%string.

(** [s.split(".")[0]]. *)
Fixpoint before_first_dot (s : string) : string :=
  match s with
  | EmptyString => EmptyString
  | String c rest =>
      if Ascii.eqb c "." then EmptyString else String c (before_first_dot rest)
  end.

(** [l[i]] for a list and an [int]: a negative index counts from the end. *)
Definition list_getitem {A} (l : list A) (i : Z) : option A :=
  let n := Z.of_nat (List.length l) in
  if (0 <=? i)%Z && (i <? n)%Z then nth_error l (Z.to_nat i)
  else if (- n <=? i)%Z && (i <? 0)%Z then nth_error l (Z.to_nat (n + i))
  else None.

(** The console: the lines still to be typed, a finite list that ends with
    the end of the input, and what was written, [print] lines and [input]
    prompts, in order. *)
Record console : Type := mkConsole {
  stdin : list string;
  stdout : list string
}.

(** What ends a console function early: [exit()], the end of the input,
    [int] of a text that is not a number, a list index out of range. *)
Inductive stop : Type :=
| SystemExit
| EOFError
| IntValueError
| ListIndexError.

Inductive result (A : Type) : Type :=
| Done (a : A)
| Stop (e : stop).
Arguments Done {A} a.
Arguments Stop {A} e.

Definition IO (A : Type) : Type := console -> result A * console.

Definition io_ret {A} (a : A) : IO A := fun c => (Done a, c).

Definition io_bind {A B} (m : IO A) (k : A -> IO B) : IO B :=
  fun c =>
    match m c with
    | (Done a, c') => k a c'
    | (Stop e, c') => (Stop e, c')
    end.

Definition io_stop {A} (e : stop) : IO A := fun c => (Stop e, c).

(** [print(line)]. *)
Definition py_print (line : string) : IO unit :=
  fun c => (Done tt, mkConsole (stdin c) (stdout c ++ [line])).

(** [input(prompt)]. *)
Definition py_input (prompt : string) : IO string :=
  fun c =>
    match stdin c with
    | line :: rest => (Done line, mkConsole rest (stdout c ++ [prompt]))
    | [] => (Stop EOFError, mkConsole [] (stdout c ++ [prompt]))
    end.

(** [for idx, file in enumerate(json_files): print(f"[{idx}] {file}")],
    from the index [idx] on. *)
Fixpoint print_choices (idx : nat) (json_files : list string) : IO unit :=
  match json_files with
  | [] => io_ret tt
  | file :: rest =>
      io_bind
        (py_print ("[" ++ NilEmpty.string_of_uint (Nat.to_uint idx) ++ "] "
                   ++ file)%string)
        (fun _ => print_choices (S idx) rest)
  end.

(** [get_input_file]; [int_of_str] is [int] on a typed text, [None] when it
    raises [ValueError]. *)
Definition get_input_file (int_of_str : string -> option Z)
           (json_files : list string) (input_dir : string) : IO string :=
  match json_files with
  | [] => io_bind (py_print "No files found") (fun _ => io_stop SystemExit)
  | [file] => io_ret file
  | _ =>
      io_bind (py_print "Choose the file to use as source file:") (fun _ =>
      io_bind (print_choices 0 json_files) (fun _ =>
      io_bind (py_input "Type file number: ") (fun file_idx =>
      match int_of_str file_idx with
      | None => io_stop IntValueError
      | Some i =>
          match list_getitem json_files i with
          | Some file => io_ret (os_path_join input_dir file)
          | None => io_stop ListIndexError
          end
      end)))
  end.

(** The value [argparse] stores for an option declared with [type=bool] and
    [nargs="+"]: the default when the option is absent, otherwise the list
    of [bool(text)] of the texts given, of which there is at least one. *)
Inductive arg_value : Type :=
| ArgBool (b : bool)
| ArgBools (l : list bool).

(** [bool(text)]. *)
Definition bool_of_str (text : string) : bool := negb (String.eqb text "").

Definition bool_option (default : bool) (given : option (string * list string))
  : arg_value :=
  match given with
  | None => ArgBool default
  | Some (first, others) => ArgBools (map bool_of_str (first :: others))
  end.

(** [if a:]. *)
Definition arg_truthy (a : arg_value) : bool :=
  match a with
  | ArgBool b => b
  | ArgBools l => match l with [] => false | _ => true end
  end.

(** [a == True]. *)
Definition arg_is_True (a : arg_value) : bool :=
  match a with
  | ArgBool b => b
  | ArgBools _ => false
  end.

(** The name with [".json"] appended unless it ends with it. *)
Definition with_json_suffix (name : string) : string :=
  if ends_with ".json" name then name else (name ++ ".json")%string.

(** [get_output_file]; [output] is [None] or a text, [str_lower] is
    [str.lower], [path_exists] is [os.path.exists]. *)
Definition get_output_file (str_lower : string -> string)
           (path_exists : string -> bool)
           (output : option string) (lang_code input_file : string)
           (auto_override : arg_value) : IO string :=
  let output_file_name :=
    with_json_suffix
      match output with
      | Some name =>
          if String.eqb name "" then (lang_code ++ ".json")%string else name
      | None => (lang_code ++ ".json")%string
      end in
  let output_file :=
    os_path_join (os_path_dirname input_file) output_file_name in
  if arg_is_True auto_override && path_exists output_file then
    io_bind
      (py_input ("File " ++ output_file_name
                 ++ " already exists. Do you want to override it? [Y/N] ")
                %string)
      (fun override =>
         if negb (existsb (String.eqb (str_lower override)) ["y"; "yes"])
         then
           io_bind (py_input "Enter the new file name: ") (fun name =>
           io_ret (os_path_join (os_path_dirname input_file)
                     (with_json_suffix name)))
         else io_ret output_file)
  else io_ret output_file.

(** The loop of [get_target_lang_code], over the lines typed. *)
Fixpoint ask_lang_code (lang_code : string) (lines written : list string)
  : result string * console :=
  if Nat.eqb (str_len lang_code) 2 then
    (Done lang_code, mkConsole lines written)
  else
    match lines with
    | [] =>
        (Stop EOFError,
         mkConsole [] (written
                       ++ ["Language code to translate to (2 letters): "]))
    | line :: rest =>
        ask_lang_code line rest
          (written ++ ["Language code to translate to (2 letters): "])
    end.

Definition get_target_lang_code (locale : option string) : IO string :=
  fun c =>
    ask_lang_code (match locale with Some l => l | None => "" end)
      (stdin c) (stdout c).

(** The test of [main] that stops a translation into the language of the
    source file:
    [lang_code.lower() == json_file_name.lower()] with
    [json_file_name = os.path.basename(input_file).split(".")[0]]. *)
Definition same_language (str_lower : string -> string)
           (lang_code input_file : string) : bool :=
  String.eqb (str_lower lang_code)
    (str_lower (before_first_dot (os_path_basename input_file))).

(** ** The program *)

Section Program.

(** The translation service: what [request.urlopen(req)] answers to a
    request for [text] into [target_lang], given everything observable
    that happened before. *)
Variable urlopen : list event -> string -> string -> http_result.

(** [str(v)] for a value that is not a [str]; Python's formatting of
    numbers, lists and dictionaries is left open. *)
Variable py_str : json -> string.

(** The exception [time.sleep] raises for a duration it does not accept
    (negative, not a number, too large), [None] for one it accepts. *)
Variable sleep_error : spec_float -> option exn.

(** What [os.environ.get("DEEPL_AUTH_KEY")] returns. *)
Variable DEEPL_AUTH_KEY : option string.

(** [time.sleep(seconds)]. *)
Definition time_sleep (seconds : spec_float) : M unit :=
  match sleep_error seconds with
  | None => emit (Sleep seconds)
  | Some e => raise e
  end.

Definition decode_text (text : json) : string :=
  match text with
  | JStr s => s
  | _ => py_str text
  end.

(** The [try: res = GLOBAL_CACHE[text] ... except KeyError: pass] block:
    [Some res] when the lookup succeeds, [None] on [KeyError]; any other
    exception propagates. *)
Definition cache_lookup (text : string) : M (option json) :=
  g <- get_global_cache ;;
  match py_getitem g text with
  | Ok res => emit (PrintUsingCache text res) ;;; ret (Some res)
  | Raise (KeyError _) => ret None
  | Raise e => raise e
  end.

(** The values of the query that [translate_string] encodes, in the order
    of its dictionary; [urlencode] applies [str] to a value that is not a
    [str], here [None] for a key that is not set. *)
Definition query (target_locale text : string) : list string :=
  [target_locale;
   match DEEPL_AUTH_KEY with Some key => key | None => "None" end;
   text;
   "1"].

Definition translate_string (text : json) (target_locale : string)
           (sleep : spec_float) (cache : option bool) : M json :=
  match text with
  | JStr s =>
      hit <- match cache with
             | Some _ => cache_lookup s
             | None => ret None
             end ;;
      match hit with
      | Some res => ret res
      | None =>
          time_sleep sleep ;;;
          lift (urlencode (query target_locale s)) ;;;
          history <- get_trace ;;
          emit (Request target_locale s) ;;;
          match urlopen history target_locale s with
          | Raised e => raise e
          | Response status body =>
              if negb (Z.eqb status 200) then
                emit (PrintErrorStatus s status) ;;; ret text
              else
                match body with
                | None => raise JSONDecodeError
                | Some response_data =>
                    present <- lift (py_in "translations" response_data) ;;
                    if negb present then
                      emit (PrintErrorEmpty s response_data) ;;; ret text
                    else
                      translations <-
                        lift (py_getitem response_data "translations") ;;
                      n <- lift (py_len translations) ;;
                      (if Nat.ltb 1 n
                       then emit (PrintMoreThanOne s translations)
                       else ret tt) ;;;
                      first <- lift (py_getitem0 translations) ;;
                      t <- lift (py_getitem first "text") ;;
                      ret (JStr (decode_text t))
                end
          end
      end
  | _ => ret text
  end.

(** The test of the second branch of the loop:
    [key in keep and existing and existing[key] is not None
     and existing[key] != ""], evaluated left to right. *)
Definition keep_applies (key : string) (keep : list string)
           (existing : json) : M bool :=
  if negb (str_in key keep) then ret false
  else if negb (truthy existing) then ret false
  else
    v <- lift (py_getitem existing key) ;;
    if is_None v then ret false
    else
      v' <- lift (py_getitem existing key) ;;
      ret (ne_empty_str v').

(** The test of the third branch: [key in GLOBAL_CACHE]. *)
Definition in_global_cache (key : string) : M bool :=
  g <- get_global_cache ;; lift (py_in key g).

Fixpoint iterate_translate (data : json) (target_locale : string)
         (sleep : spec_float) (skip keep : list string) (existing : json)
         (cache : option bool) {struct data} : M json :=
  match data with
  | JDict items =>
      res <- for_items
               (fun key value res =>
                  if str_in key skip then
                    ret (dict_setitem res key value)
                  else
                    kept <- keep_applies key keep existing ;;
                    if kept then
                      v <- lift (py_getitem existing key) ;;
                      ret (dict_setitem res key v)
                    else
                      cached <- in_global_cache key ;;
                      if cached then
                        g <- get_global_cache ;;
                        v <- lift (py_getitem g key) ;;
                        ret (dict_setitem res key v)
                      else
                        v <- iterate_translate value target_locale sleep
                               skip keep existing cache ;;
                        ret (dict_setitem res key v)) items [] ;;
      ret (JDict res)
  | JList l =>
      r <- list_comprehension
             (fun value => iterate_translate value target_locale sleep
                             skip keep existing cache) l ;;
      ret (JList r)
  | JStr s =>
      if String.eqb s "" then ret data
      else translate_string data target_locale sleep cache
  | JBool _ | JInt _ | JFloat _ => ret data
  | JNull => ret JNull
  end.

(** [get_strings_from_file]: [data] is what [json.load] read from the
    source file, [output] the content of the output file when it exists
    ([FileNotFoundError] gives [existing = {}]). *)
Definition get_strings_from_file (data : json) (output : option json)
           (target_locale : string) (sleep : spec_float)
           (skip keep : option (list string)) (cache : option bool)
  : M json :=
  let skip := match skip with None => [] | Some l => l end in
  let keep := match keep with None => [] | Some l => l end in
  let existing := match output with Some e => e | None => JDict [] end in
  iterate_translate data target_locale sleep skip keep existing cache.

(** The two files a run reads and rewrites: the output file next to the
    source file and [.cache_locale/<lang_code>.json].  A file holds the
    document that [json.dump] wrote and [json.load] reads back. *)
Record disk : Type := mkDisk {
  output_file : option json;
  cache_file : option json
}.

(** [save_results_file]: [with_cache_file] says whether the argument
    [cache_file] is not [None]. *)
Definition save_results_file (data : json) (with_cache_file : bool)
           (d : disk) : M disk :=
  let d' := mkDisk (Some data) (cache_file d) in
  let d'' := if with_cache_file then mkDisk (output_file d') (Some data)
             else d' in
  emit PrintResultsSaved ;;; ret d''.

(** [GLOBAL_CACHE.pop(key, None)]. *)
Definition global_cache_pop (key : string) : M unit :=
  fun st =>
    match GLOBAL_CACHE st with
    | JDict d => (Ok tt, mkState (JDict (dict_pop d key)) (trace st))
    | JList _ => (Raise TypeError, st)
    | _ => (Raise AttributeError, st)
    end.

Fixpoint pop_all (nocache : list string) : M unit :=
  match nocache with
  | [] => ret tt
  | key :: rest => global_cache_pop key ;;; pop_all rest
  end.

(** The [if args.cache:] block of [main]: [GLOBAL_CACHE = json.load(f)],
    then the keys of [--nocache] are popped; a missing cache file leaves
    the global as it is. *)
Definition load_global_cache (d : disk) (nocache : option (list string))
  : M unit :=
  match cache_file d with
  | Some c =>
      (fun st => (Ok tt, mkState c (trace st))) ;;;
      match nocache with
      | Some keys => pop_all keys
      | None => ret tt
      end
  | None => ret tt
  end.

(** [main] from the point where the source document has been read and
    the two file names are known.  [args.cache] is [True] or a non-empty
    list whatever the command line says, so the cache is always loaded,
    passed on and written.  [target_locale] is [lang_code.upper()]. *)
Definition main (data : json) (target_locale : string)
           (sleep : spec_float) (skip keep nocache : option (list string))
           (d : disk) : M disk :=
  load_global_cache d nocache ;;;
  results <- get_strings_from_file data (output_file d) target_locale sleep
               skip keep (Some true) ;;
  save_results_file results true d.

(** A run of the program is a fresh process: the module initialises
    [GLOBAL_CACHE = dict()]; [history] is what happened before. *)
Definition run (data : json) (target_locale : string)
           (sleep : spec_float) (skip keep nocache : option (list string))
           (d : disk) (history : list event) : outcome disk * list event :=
  let (r, st) := main data target_locale sleep skip keep nocache d
                   (mkState (JDict []) history) in
  (r, trace st).

(** The right-hand side of whichever assignment [res[key] = ...] the
    loop of [iterate_translate] executes for an entry. *)
Definition entry_value (target_locale : string) (sleep : spec_float)
           (skip keep : list string) (existing : json)
           (cache : option bool) (key : string) (value : json) : M json :=
  if str_in key skip then ret value
  else
    kept <- keep_applies key keep existing ;;
    if kept then lift (py_getitem existing key)
    else
      cached <- in_global_cache key ;;
      if cached then g <- get_global_cache ;; lift (py_getitem g key)
      else iterate_translate value target_locale sleep skip keep existing
             cache.

(** [stored ... g key value v]: in some state whose process cache is [g],
    the loop of [iterate_translate] stores [v] at [key] for the source
    entry [key: value]. *)
Definition stored tl sleep skip keep existing cache
           (g : json) (key : string) (value v : json) : Prop :=
  exists s s',
    GLOBAL_CACHE s = g /\
    entry_value tl sleep skip keep existing cache key value s
    = (Ok v, s').

(** * Properties *)

(** ** The monad *)

Lemma bind_ok {A B} {m : M A} (k : A -> M B) {st a st'} :
  m st = (Ok a, st') -> bind m k st = k a st'.
Proof. intros H. unfold bind. now rewrite H. Qed.

Lemma bind_inv {A B} (m : M A) (k : A -> M B) st b st' :
  bind m k st = (Ok b, st') ->
  exists a st1, m st = (Ok a, st1) /\ k a st1 = (Ok b, st').
Proof.
  unfold bind. destruct (m st) as [[a | e] st1]; intros H.
  - now exists a, st1.
  - discriminate.
Qed.

Lemma bind_congr {A B} (m1 m2 : M A) (k : A -> M B) st :
  m1 st = m2 st -> bind m1 k st = bind m2 k st.
Proof. intros H. unfold bind. now rewrite H. Qed.

(** ** Dictionaries *)

Lemma str_in_In key l : str_in key l = true <-> In key l.
Proof.
  unfold str_in. rewrite existsb_exists. split.
  - intros [x [Hx E]]. apply String.eqb_eq in E. now subst.
  - intros H. exists key. split; [assumption | apply String.eqb_refl].
Qed.

Lemma str_in_not_In key l : str_in key l = false <-> ~ In key l.
Proof.
  rewrite <- str_in_In. destruct (str_in key l); split; intros H; easy.
Qed.

Lemma nodupb_NoDup l : nodupb l = true <-> NoDup l.
Proof.
  induction l as [| k rest IH]; simpl.
  - split; [constructor | reflexivity].
  - rewrite andb_true_iff, negb_true_iff, str_in_not_In, IH. split.
    + intros [H1 H2]. now constructor.
    + intros H. inversion H. auto.
Qed.

Lemma dict_setitem_new d key v :
  ~ In key (keys d) -> dict_setitem d key v = d ++ [(key, v)].
Proof.
  induction d as [| [k w] rest IH]; simpl; intros H.
  - reflexivity.
  - destruct (String.eqb_spec key k) as [-> | Hne].
    + elim H. now left.
    + rewrite IH; [reflexivity | tauto].
Qed.

Lemma dict_get_In d key v : dict_get d key = Some v -> In key (keys d).
Proof.
  induction d as [| [k w] rest IH]; simpl; [discriminate |].
  destruct (String.eqb_spec key k) as [-> | Hne]; intros H.
  - now left.
  - right. now apply IH.
Qed.

Lemma dict_get_keys d key :
  In key (keys d) -> exists v, dict_get d key = Some v.
Proof.
  induction d as [| [k w] rest IH]; simpl; [easy |].
  intros H. destruct (String.eqb_spec key k) as [-> | Hne].
  - now exists w.
  - destruct H as [H | H]; [congruence | now apply IH].
Qed.

(** ** The loops *)

Lemma for_items_ext step1 step2 items :
  (forall k v r st, step1 k v r st = step2 k v r st) ->
  forall res st, for_items step1 items res st = for_items step2 items res st.
Proof.
  intros E. induction items as [| [k v] rest IH]; intros res st; simpl.
  - reflexivity.
  - unfold bind. rewrite E. destruct (step2 k v res st) as [[r | e] st1].
    + apply IH.
    + reflexivity.
Qed.

(** The loop of the [dict] branch stores, at each key, the value computed
    by [entry_value]. *)
Lemma iterate_translate_dict items tl sleep skip keep existing cache st :
  iterate_translate (JDict items) tl sleep skip keep existing cache st
  = (res <- for_items
              (fun key value res =>
                 v <- entry_value tl sleep skip keep existing
                        cache key value ;;
                 ret (dict_setitem res key v)) items [] ;;
     ret (JDict res)) st.
Proof.
  change (iterate_translate (JDict items) tl sleep skip keep existing cache)
    with (bind (for_items
              (fun key value res =>
                 if str_in key skip then ret (dict_setitem res key value)
                 else
                   kept <- keep_applies key keep existing ;;
                   if kept then
                     v <- lift (py_getitem existing key) ;;
                     ret (dict_setitem res key v)
                   else
                     cached <- in_global_cache key ;;
                     if cached then
                       g <- get_global_cache ;;
                       v <- lift (py_getitem g key) ;;
                       ret (dict_setitem res key v)
                     else
                       v <- iterate_translate value tl sleep
                              skip keep existing cache ;;
                       ret (dict_setitem res key v))
              items []) (fun res => ret (JDict res))).
  apply bind_congr.
  apply for_items_ext. intros k v r s. unfold entry_value.
  destruct (str_in k skip); [reflexivity |].
  unfold bind. destruct (keep_applies k keep existing s) as [[[] | e] s1].
  - unfold lift. destruct (py_getitem existing k); reflexivity.
  - destruct (in_global_cache k s1) as [[[] | e] s2].
    + unfold get_global_cache, lift.
      destruct (py_getitem (GLOBAL_CACHE s2) k); reflexivity.
    + destruct (iterate_translate v tl sleep skip keep
                  existing cache s2) as [[w | e] s3]; reflexivity.
    + reflexivity.
  - reflexivity.
Qed.

(** With unique keys the loop that assigns [res[key]] one key at a time
    builds the entries in the order of the source dictionary. *)
Lemma for_items_entries (f : string -> json -> M json) items :
  forall res st,
    NoDup (keys res ++ keys items) ->
    for_items (fun key value res =>
                 v <- f key value ;; ret (dict_setitem res key v))
      items res st
    = (r <- list_comprehension
              (fun kv => v <- f (fst kv) (snd kv) ;; ret (fst kv, v)) items ;;
       ret (res ++ r)) st.
Proof.
  induction items as [| [k x] rest IH]; intros res st ND; simpl.
  - unfold bind, ret. now rewrite app_nil_r.
  - unfold bind, ret. simpl.
    destruct (f k x st) as [[v | e] st1]; [| reflexivity].
    assert (Hk : ~ In k (keys res)).
    { intros Hin. apply NoDup_remove_2 in ND. apply ND.
      apply in_or_app. now left. }
    rewrite dict_setitem_new by assumption.
    rewrite IH.
    + unfold bind, ret.
      destruct (list_comprehension _ rest st1) as [[r | e] st2];
        [| reflexivity].
      now rewrite <- app_assoc.
    + unfold keys in *. rewrite map_app, <- app_assoc. exact ND.
Qed.

(** What a comprehension that returns says about each element: [I] is an
    invariant of the state, [R] relates an element to its image. *)
Lemma list_comprehension_inv {A B} (f : A -> M B) (I : state -> Prop)
      (R : A -> B -> Prop) l :
  Forall (fun x => forall st y st',
              I st -> f x st = (Ok y, st') -> R x y /\ I st') l ->
  forall st r st',
    I st -> list_comprehension f l st = (Ok r, st') ->
    Forall2 R l r /\ I st'.
Proof.
  induction 1 as [| x xs Hx _ IH]; intros st r st' HI E; simpl in E.
  - inversion E; subst. split; [constructor | assumption].
  - apply bind_inv in E. destruct E as [y [st1 [E1 E]]].
    apply bind_inv in E. destruct E as [ys [st2 [E2 E]]].
    inversion E; subst.
    destruct (Hx _ _ _ HI E1) as [HR HI1].
    destruct (IH _ _ _ HI1 E2) as [HF HI2].
    split; [now constructor | assumption].
Qed.

Lemma for_items_ok step (I : state -> Prop) items :
  Forall (fun kv => forall res st,
              I st ->
              exists res' st',
                step (fst kv) (snd kv) res st = (Ok res', st') /\ I st')
         items ->
  forall res st,
    I st -> exists r st', for_items step items res st = (Ok r, st') /\ I st'.
Proof.
  induction 1 as [| [k x] rest Hx _ IH]; intros res st HI; simpl.
  - exists res, st. split; [reflexivity | assumption].
  - destruct (Hx res _ HI) as [res1 [st1 [E1 HI1]]]. simpl in E1.
    destruct (IH res1 _ HI1) as [r [st2 [E2 HI2]]].
    exists r, st2. split; [| assumption].
    rewrite (bind_ok _ E1). exact E2.
Qed.

(** ** The process cache is read-only during a traversal *)

Lemma keeps_cache_ret {A} (a : A) : keeps_cache (ret a).
Proof. intros st. reflexivity. Qed.

Lemma keeps_cache_raise {A} e : keeps_cache (@raise A e).
Proof. intros st. reflexivity. Qed.

Lemma keeps_cache_lift {A} (o : outcome A) : keeps_cache (lift o).
Proof. intros st. reflexivity. Qed.

Lemma keeps_cache_emit e : keeps_cache (emit e).
Proof. intros st. reflexivity. Qed.

Lemma keeps_cache_get_global_cache : keeps_cache get_global_cache.
Proof. intros st. reflexivity. Qed.

Lemma keeps_cache_get_trace : keeps_cache get_trace.
Proof. intros st. reflexivity. Qed.

Lemma keeps_cache_bind {A B} (m : M A) (k : A -> M B) :
  keeps_cache m -> (forall a, keeps_cache (k a)) -> keeps_cache (bind m k).
Proof.
  intros Hm Hk st. unfold bind. specialize (Hm st).
  destruct (m st) as [[a | e] st1]; simpl in *.
  - now rewrite Hk.
  - assumption.
Qed.

Lemma keeps_cache_list_comprehension {A B} (f : A -> M B) l :
  Forall (fun x => keeps_cache (f x)) l ->
  keeps_cache (list_comprehension f l).
Proof.
  induction 1 as [| x xs Hx _ IH]; simpl.
  - apply keeps_cache_ret.
  - apply keeps_cache_bind; [assumption | intros y].
    apply keeps_cache_bind; [assumption | intros ys].
    apply keeps_cache_ret.
Qed.

Lemma keeps_cache_for_items step items :
  Forall (fun kv => forall res, keeps_cache (step (fst kv) (snd kv) res))
         items ->
  forall res, keeps_cache (for_items step items res).
Proof.
  induction 1 as [| [k x] rest Hx _ IH]; intros res; simpl.
  - apply keeps_cache_ret.
  - apply keeps_cache_bind; [apply Hx | assumption].
Qed.

Ltac keeps_cache_tac :=
  repeat first
    [ apply keeps_cache_ret | apply keeps_cache_raise | apply keeps_cache_lift
    | apply keeps_cache_emit | apply keeps_cache_get_global_cache
    | apply keeps_cache_get_trace
    | apply keeps_cache_bind; [| intro]
    | match goal with
      | |- keeps_cache (if ?b then _ else _) => destruct b
      | |- keeps_cache (match ?x with _ => _ end) => destruct x
      end ].

Lemma keeps_cache_translate_string text tl sleep cache :
  keeps_cache
    (translate_string text tl sleep cache).
Proof.
  unfold translate_string, cache_lookup, time_sleep. keeps_cache_tac.
Qed.

Lemma keeps_cache_keep_applies key keep existing :
  keeps_cache (keep_applies key keep existing).
Proof. unfold keep_applies. keeps_cache_tac. Qed.

Lemma keeps_cache_in_global_cache key : keeps_cache (in_global_cache key).
Proof. unfold in_global_cache. keeps_cache_tac. Qed.

Lemma keeps_cache_iterate_translate tl sleep skip keep existing cache data :
  keeps_cache (iterate_translate data tl sleep skip keep existing cache).
Proof.
  induction data as [| b | n | f | s | l IH | d IH] using json_nested_ind;
    cbn [iterate_translate]; try apply keeps_cache_ret.
  - destruct (String.eqb s ""); [apply keeps_cache_ret |].
    apply keeps_cache_translate_string.
  - apply keeps_cache_bind; [| intro; apply keeps_cache_ret].
    now apply keeps_cache_list_comprehension.
  - apply keeps_cache_bind; [| intro; apply keeps_cache_ret].
    apply keeps_cache_for_items.
    eapply Forall_impl; [| exact IH]. intros [k x] Hx res. simpl in *.
    destruct (str_in k skip); [apply keeps_cache_ret |].
    apply keeps_cache_bind; [apply keeps_cache_keep_applies | intros kept].
    destruct kept; [keeps_cache_tac |].
    apply keeps_cache_bind; [apply keeps_cache_in_global_cache | intros c].
    destruct c; [keeps_cache_tac |].
    apply keeps_cache_bind; [assumption | intro; apply keeps_cache_ret].
Qed.

Lemma keeps_cache_eq {A} (m : M A) st o st' :
  keeps_cache m -> m st = (o, st') -> GLOBAL_CACHE st' = GLOBAL_CACHE st.
Proof. intros H E. specialize (H st). now rewrite E in H. Qed.

Lemma keeps_cache_entry_value tl sleep skip keep existing cache key value :
  keeps_cache (entry_value tl sleep skip keep existing cache key value).
Proof.
  unfold entry_value. destruct (str_in key skip); [apply keeps_cache_ret |].
  apply keeps_cache_bind; [apply keeps_cache_keep_applies | intros kept].
  destruct kept; [apply keeps_cache_lift |].
  apply keeps_cache_bind; [apply keeps_cache_in_global_cache | intros c].
  destruct c; [keeps_cache_tac |].
  apply keeps_cache_iterate_translate.
Qed.

(** ** Object nodes *)

(** The result of an object node with unique keys: the same keys in the
    same order, each with the value [entry_value] computed for it in some
    state that carries the process cache of the start. *)
Lemma iterate_translate_dict_inv items tl sleep skip keep
      existing cache st out st' :
  NoDup (keys items) ->
  iterate_translate (JDict items) tl sleep skip keep existing
    cache st = (Ok out, st') ->
  exists r,
    out = JDict r /\
    Forall2 (fun kv kv' =>
               fst kv' = fst kv /\
               stored tl sleep skip keep existing cache
                 (GLOBAL_CACHE st) (fst kv) (snd kv) (snd kv')) items r.
Proof.
  intros ND E. rewrite iterate_translate_dict in E.
  apply bind_inv in E. destruct E as [r [st1 [E1 E]]].
  inversion E; subst. exists r. split; [reflexivity |].
  rewrite for_items_entries in E1 by exact ND.
  apply bind_inv in E1. destruct E1 as [r' [st2 [E1 E2]]].
  inversion E2; subst. simpl.
  refine (proj1 (list_comprehension_inv _
                   (fun s => GLOBAL_CACHE s = GLOBAL_CACHE st)
                   (fun kv kv' =>
                      fst kv' = fst kv /\
                      stored tl sleep skip keep existing cache
                        (GLOBAL_CACHE st) (fst kv) (snd kv) (snd kv'))
                   _ _ _ _ _ eq_refl E1)).
  apply Forall_forall. intros [k x] _ s y s' Hs Ey. simpl in *.
  apply bind_inv in Ey. destruct Ey as [v [s1 [Ev Ey]]].
  inversion Ey; subst. simpl. split.
  - split; [reflexivity |]. now exists s, s'.
  - rewrite <- Hs. exact (keeps_cache_eq _ _ _ _
             (keeps_cache_entry_value _ _ _ _ _ _ _ _) Ev).
Qed.

Lemma Forall2_dict_get (Q : string -> json -> json -> Prop) items r :
  Forall2 (fun kv kv' => fst kv' = fst kv /\ Q (fst kv) (snd kv) (snd kv'))
          items r ->
  forall k x, dict_get items k = Some x ->
              exists y, dict_get r k = Some y /\ Q k x y.
Proof.
  induction 1 as [| [k0 x0] [k1 y1] items r [Hk HQ] _ IH]; intros k x G;
    simpl in *; [discriminate |]. subst k1.
  destruct (String.eqb_spec k k0) as [-> | Hne].
  - inversion G; subst. now exists y1.
  - now apply IH.
Qed.

Lemma Forall2_keys (Q : string -> json -> json -> Prop) items r :
  Forall2 (fun kv kv' => fst kv' = fst kv /\ Q (fst kv) (snd kv) (snd kv'))
          items r ->
  keys r = keys items.
Proof.
  induction 1 as [| [k0 x0] [k1 y1] items r [Hk HQ] _ IH]; simpl in *.
  - reflexivity.
  - now rewrite Hk, IH.
Qed.

Lemma entry_value_skip tl sleep skip keep existing cache key value st :
  str_in key skip = true ->
  entry_value tl sleep skip keep existing cache key value st
  = (Ok value, st).
Proof. intros H. unfold entry_value. now rewrite H. Qed.

Lemma entry_value_keep tl sleep skip keep e cache key value
      v st :
  str_in key skip = false ->
  str_in key keep = true ->
  dict_get e key = Some v ->
  is_None v = false ->
  ne_empty_str v = true ->
  entry_value tl sleep skip keep (JDict e) cache key value st
  = (Ok v, st).
Proof.
  intros Hs Hk G Hn He. unfold entry_value, keep_applies. rewrite Hs, Hk.
  assert (T : truthy (JDict e) = true)
    by (destruct e; [discriminate | reflexivity]).
  rewrite T. unfold bind, lift, ret. simpl. rewrite G, Hn, He. reflexivity.
Qed.

Lemma entry_value_recursed tl sleep skip keep existing cache key value st :
  recursed skip keep (GLOBAL_CACHE st) (Key key) = true ->
  entry_value tl sleep skip keep existing cache key value st
  = iterate_translate value tl sleep skip keep existing cache st.
Proof.
  cbn [recursed]. intros H.
  apply andb_true_iff in H. destruct H as [H Hg].
  apply andb_true_iff in H. destruct H as [Hs Hk].
  apply negb_true_iff in Hs, Hk. unfold not_in in Hg.
  unfold entry_value, keep_applies. rewrite Hs, Hk.
  cbv beta iota delta [bind ret in_global_cache get_global_cache lift negb].
  destruct (py_in key (GLOBAL_CACHE st)) as [[] | ]; try discriminate.
  reflexivity.
Qed.

Lemma for_items_same_step step k x y l2 :
  (forall res s, step k x res s = step k y res s) ->
  forall l1 res st,
    for_items step (l1 ++ (k, x) :: l2) res st
    = for_items step (l1 ++ (k, y) :: l2) res st.
Proof.
  intros E. induction l1 as [| [k0 x0] l1 IH]; intros res st; simpl.
  - unfold bind. now rewrite E.
  - unfold bind. destruct (step k0 x0 res st) as [[r | e] st1]; auto.
Qed.

(** The effects of the loop do not depend on the dictionary it fills. *)
Lemma for_items_same_effect (f : string -> json -> M json) items :
  forall res res' st,
    same_effect
      (for_items (fun key value res =>
                    v <- f key value ;; ret (dict_setitem res key v))
         items res st)
      (for_items (fun key value res =>
                    v <- f key value ;; ret (dict_setitem res key v))
         items res' st).
Proof.
  induction items as [| [k x] rest IH]; intros res res' st; cbn [for_items].
  - now split.
  - unfold bind at 1 2 4 5.
    destruct (f k x st) as [[v | e] st1]; [apply IH | now split].
Qed.

(** Nor on the value of an entry that the loop copies. *)
Lemma for_items_copied_entry (f : string -> json -> M json) k x y after :
  (forall v st, f k v st = (Ok v, st)) ->
  forall before res res' st,
    same_effect
      (for_items (fun key value res =>
                    v <- f key value ;; ret (dict_setitem res key v))
         (before ++ (k, x) :: after) res st)
      (for_items (fun key value res =>
                    v <- f key value ;; ret (dict_setitem res key v))
         (before ++ (k, y) :: after) res' st).
Proof.
  intros Hcopy.
  induction before as [| [k0 x0] before IH]; intros res res' st;
    cbn [app for_items].
  - unfold bind at 1 2 4 5. rewrite !Hcopy. apply for_items_same_effect.
  - unfold bind at 1 2 4 5.
    destruct (f k0 x0 st) as [[v | e] st1]; [apply IH | now split].
Qed.

(** ** Leaves *)

(** C8: [iterate_translate] returns the empty string as it is and leaves
    the state as it was: no sleep, no request to the translation service,
    nothing printed, whatever the policy lists, the existing document and
    the cache. *)
Theorem empty_string_identity :
  forall tl sleep skip keep existing cache st,
    iterate_translate (JStr "") tl sleep skip keep existing
      cache st = (Ok (JStr ""), st).
Proof. reflexivity. Qed.

(** C9: a leaf that is not a string ([None], a [bool], an [int], a [float])
    is returned unchanged and the state is untouched, so the translation
    service is not called; [None] matches no [isinstance] test and the
    function falls off its end, which returns [None]. *)
Theorem non_string_pass_through :
  forall tl sleep skip keep existing cache st,
    iterate_translate JNull tl sleep skip keep existing
      cache st = (Ok JNull, st) /\
    (forall b,
        iterate_translate (JBool b) tl sleep skip keep
          existing cache st = (Ok (JBool b), st)) /\
    (forall n,
        iterate_translate (JInt n) tl sleep skip keep
          existing cache st = (Ok (JInt n), st)) /\
    (forall f,
        iterate_translate (JFloat f) tl sleep skip keep
          existing cache st = (Ok (JFloat f), st)).
Proof. intros. repeat split. Qed.

(** ** The policy rules *)

(** C5: in an object node, a key of the skip list keeps the value it has in
    the source, whatever the keep list, the existing output document and
    the process cache hold; and the effects of the run (requests, sleeps,
    lines printed, exception) are the same whatever the source holds at
    that key, so nothing of the skipped subtree is translated. *)
Theorem skip_precedence :
  forall tl sleep skip keep existing cache k,
    str_in k skip = true ->
    (forall items v st out st',
        nodupb (keys items) = true ->
        dict_get items k = Some v ->
        iterate_translate (JDict items) tl sleep skip keep existing cache st
        = (Ok out, st') ->
        exists res, out = JDict res /\ dict_get res k = Some v) /\
    (forall before after x y st,
        same_effect
          (iterate_translate (JDict (before ++ (k, x) :: after))
             tl sleep skip keep existing cache st)
          (iterate_translate (JDict (before ++ (k, y) :: after))
             tl sleep skip keep existing cache st)).
Proof.
  intros * Hs. split.
  - intros * ND G E. apply nodupb_NoDup in ND.
    destruct (iterate_translate_dict_inv _ _ _ _ _ _ _ _ _ _ ND E)
      as [r [-> F]].
    exists r. split; [reflexivity |].
    destruct (Forall2_dict_get
                (stored tl sleep skip keep existing cache
                   (GLOBAL_CACHE st)) _ _ F _ _ G)
      as [y [Gy [s [s' [_ Ey]]]]].
    rewrite entry_value_skip in Ey by assumption. now inversion Ey; subst.
  - intros. rewrite !iterate_translate_dict.
    pose proof (for_items_copied_entry
                  (entry_value tl sleep skip keep existing cache)
                  k x y after
                  (fun v s => entry_value_skip tl sleep skip keep existing
                                cache k v s Hs)
                  before [] [] st) as [Hst Hout].
    unfold bind.
    destruct (for_items _ (before ++ (k, x) :: after) [] st) as [[r | e] s1];
      destruct (for_items _ (before ++ (k, y) :: after) [] st)
        as [[r' | e'] s2];
      cbn [fst snd] in *; try contradiction; now split.
Qed.

(** C6: for a key that is in the keep list and not in the skip list, and
    for which the existing output document holds a value that is neither
    [None] nor the empty string, an object node returns that existing value
    at the key; and the run (result, requests sent, lines printed) is the
    same whatever the source holds at that key, so nothing of that subtree
    is sent to the translation service. *)
Theorem keep_precedence :
  forall tl sleep skip keep e cache k v,
    str_in k skip = false ->
    str_in k keep = true ->
    dict_get e k = Some v ->
    is_None v = false ->
    ne_empty_str v = true ->
    (forall items x st out st',
        nodupb (keys items) = true ->
        dict_get items k = Some x ->
        iterate_translate (JDict items) tl sleep skip keep
          (JDict e) cache st = (Ok out, st') ->
        exists res, out = JDict res /\ dict_get res k = Some v) /\
    (forall before after x y st,
        iterate_translate (JDict (before ++ (k, x) :: after))
          tl sleep skip keep (JDict e) cache st
        = iterate_translate
            (JDict (before ++ (k, y) :: after))
            tl sleep skip keep (JDict e) cache st).
Proof.
  intros * Hs Hk G Hn He. split.
  - intros * ND Gx E. apply nodupb_NoDup in ND.
    destruct (iterate_translate_dict_inv _ _ _ _ _ _ _ _ _ _ ND E)
      as [r [-> F]].
    exists r. split; [reflexivity |].
    destruct (Forall2_dict_get
                (stored tl sleep skip keep (JDict e) cache
                   (GLOBAL_CACHE st)) _ _ F _ _ Gx)
      as [w [Gw [s [s' [_ Ew]]]]].
    rewrite (entry_value_keep _ _ _ _ _ _ _ _ _ _ Hs Hk G Hn He) in Ew.
    now inversion Ew; subst.
  - intros. rewrite !iterate_translate_dict. apply bind_congr.
    apply for_items_same_step. intros res s. unfold bind.
    now rewrite !(entry_value_keep _ _ _ _ _ _ _ _ _ _ Hs Hk G Hn He).
Qed.

(** C3, at the input where the code departs from it: the key ["a"] is in
    the keep list, the existing output document [{"b": "y"}] is a non-empty
    mapping without it; the lookup [existing["a"]] raises [KeyError] and
    the traversal stops there. *)
Theorem keep_lookup_of_missing_key_raises :
  forall tl sleep cache st,
    iterate_translate (JDict [("a", JStr "x")]) tl sleep
      [] ["a"] (JDict [("b", JStr "y")]) cache st
    = (Raise (KeyError (JStr "a")), st).
Proof. reflexivity. Qed.

(** C10: a key of the keep list met at any depth of the source, below keys
    and array elements the traversal recurses through, takes the value the
    existing output document holds at that key at its top level; what the
    existing document holds along the path plays no part. *)
Theorem existing_is_not_descended :
  forall tl sleep skip keep e cache path k x v st,
    forallb (recursed skip keep (GLOBAL_CACHE st)) path = true ->
    str_in k skip = false ->
    str_in k keep = true ->
    dict_get e k = Some v ->
    is_None v = false ->
    ne_empty_str v = true ->
    iterate_translate (nest path (JDict [(k, x)])) tl sleep
      skip keep (JDict e) cache st
    = (Ok (nest path (JDict [(k, v)])), st).
Proof.
  intros * Hp Hs Hk G Hn He.
  induction path as [| [p |] path IH]; cbn [nest].
  - rewrite iterate_translate_dict. cbn [for_items]. unfold bind.
    now rewrite (entry_value_keep _ _ _ _ _ _ _ _ _ _ Hs Hk G Hn He).
  - cbn [forallb] in Hp.
    apply andb_true_iff in Hp. destruct Hp as [Hp Hrest].
    rewrite iterate_translate_dict. cbn [for_items]. unfold bind.
    rewrite (entry_value_recursed _ _ _ _ _ _ _ _ _ Hp).
    now rewrite (IH Hrest).
  - cbn [forallb recursed] in Hp. cbn [iterate_translate list_comprehension].
    unfold bind. rewrite (IH Hp). reflexivity.
Qed.

(** ** Failures of the translation service *)

Lemma cache_lookup_misses cache s st :
  cache_misses cache (GLOBAL_CACHE st) s = true ->
  match cache with
  | Some _ => cache_lookup s
  | None => ret None
  end st = (Ok None, st).
Proof.
  intros Hm. destruct cache as [b |]; [| reflexivity].
  unfold cache_misses in Hm. unfold cache_lookup, bind, get_global_cache.
  destruct (py_getitem (GLOBAL_CACHE st) s) as [w | []];
    try discriminate. reflexivity.
Qed.

(** Once the query is known to be encoded, the step that builds it does
    nothing. *)
Ltac query_encoded H :=
  rewrite H;
  change (lift (Ok tt)) with (fun st : state => (@Ok unit tt, st)).

Lemma translate_string_failure s tl sleep cache st report :
  sleep_error sleep = None ->
  urlencode (query tl s) = Ok tt ->
  cache_misses cache (GLOBAL_CACHE st) s = true ->
  failure_report s (urlopen (trace st ++ [Sleep sleep]) tl s) = Some report ->
  translate_string (JStr s) tl sleep cache st
  = (Ok (JStr s),
     mkState (GLOBAL_CACHE st)
       (trace st ++ [Sleep sleep; Request tl s; report])).
Proof.
  destruct st as [g t]. cbn [GLOBAL_CACHE trace]. intros Hsl Henc Hm Hf.
  pose proof (cache_lookup_misses cache s (mkState g t) Hm) as Hhit.
  unfold translate_string, time_sleep. rewrite (bind_ok _ Hhit), Hsl.
  query_encoded Henc.
  cbv beta iota delta [bind emit get_trace GLOBAL_CACHE trace].
  destruct (urlopen (t ++ [Sleep sleep]) tl s)
    as [status body | e]; cbn [failure_report] in Hf; [| discriminate].
  destruct (negb (Z.eqb status 200)).
  - inversion Hf; subst. cbv [ret]. rewrite <- !app_assoc. reflexivity.
  - destruct body as [rd |]; [| discriminate]. unfold not_in in Hf.
    cbv beta iota delta [lift].
    destruct (py_in "translations" rd) as [[] | ]; try discriminate.
    inversion Hf; subst. cbv [negb ret]. rewrite <- !app_assoc. reflexivity.
Qed.

(** An exception of [urlopen] is not caught: it leaves [translate_string]
    after the sleep and the request. *)
Lemma translate_string_urlopen_raises s tl sleep cache st e :
  sleep_error sleep = None ->
  urlencode (query tl s) = Ok tt ->
  cache_misses cache (GLOBAL_CACHE st) s = true ->
  urlopen (trace st ++ [Sleep sleep]) tl s = Raised e ->
  translate_string (JStr s) tl sleep cache st
  = (Raise e,
     mkState (GLOBAL_CACHE st) (trace st ++ [Sleep sleep; Request tl s])).
Proof.
  destruct st as [g t]. cbn [GLOBAL_CACHE trace]. intros Hsl Henc Hm Hr.
  pose proof (cache_lookup_misses cache s (mkState g t) Hm) as Hhit.
  unfold translate_string, time_sleep. rewrite (bind_ok _ Hhit), Hsl.
  query_encoded Henc.
  cbv beta iota delta [bind emit get_trace GLOBAL_CACHE trace].
  rewrite Hr. cbv [raise]. rewrite <- app_assoc. reflexivity.
Qed.

(** C2, where the code departs from it: a request that the service
    refuses with an error status makes [urlopen] raise [HTTPError]; the
    test [response.status != 200] is not reached and nothing catches the
    exception.  It leaves [translate_string] after the sleep and the
    request, with no line printed and the source text not returned; it
    leaves the traversal, whatever path of keys and array elements leads
    to the text and whatever entries follow, which are not visited; and it
    leaves [main] before anything is saved. *)
Theorem http_error_aborts_the_run :
  forall tl sleep skip keep cache st path s status k rest,
    String.eqb s "" = false ->
    sleep_error sleep = None ->
    urlencode (query tl s) = Ok tt ->
    cache_misses cache (GLOBAL_CACHE st) s = true ->
    forallb (recursed skip keep (GLOBAL_CACHE st)) (Key k :: path) = true ->
    urlopen (trace st ++ [Sleep sleep]) tl s = Raised (HTTPError status) ->
    let document := JDict ((k, nest path (JStr s)) :: rest) in
    let sent := mkState (GLOBAL_CACHE st)
                  (trace st ++ [Sleep sleep; Request tl s]) in
    translate_string (JStr s) tl sleep cache st
    = (Raise (HTTPError status), sent) /\
    (forall existing,
        iterate_translate document tl sleep skip keep existing cache st
        = (Raise (HTTPError status), sent)) /\
    (forall skip0 keep0 nocache d st0,
        skip = match skip0 with None => [] | Some l => l end ->
        keep = match keep0 with None => [] | Some l => l end ->
        cache = Some true ->
        load_global_cache d nocache st0 = (Ok tt, st) ->
        main document tl sleep skip0 keep0 nocache d st0
        = (Raise (HTTPError status), sent)).
Proof.
  intros * Hs Hsl Henc Hm Hp Hr document sent.
  pose proof (translate_string_urlopen_raises s tl sleep cache st _
                Hsl Henc Hm Hr) as Ht.
  fold sent in Ht.
  assert (Hnest : forall existing path,
             forallb (recursed skip keep (GLOBAL_CACHE st)) path = true ->
             iterate_translate (nest path (JStr s)) tl sleep skip keep
               existing cache st
             = (Raise (HTTPError status), sent)).
  { clear Hp. intros existing.
    induction path0 as [| [p |] path0 IH]; intros Hp; cbn [nest].
    - cbn [iterate_translate]. rewrite Hs. exact Ht.
    - cbn [forallb] in Hp.
      apply andb_true_iff in Hp. destruct Hp as [Hp Hrest].
      rewrite iterate_translate_dict. cbn [for_items]. unfold bind.
      rewrite (entry_value_recursed _ _ _ _ _ _ _ _ _ Hp).
      now rewrite (IH Hrest).
    - cbn [forallb recursed] in Hp.
      cbn [iterate_translate list_comprehension].
      unfold bind. now rewrite (IH Hp). }
  assert (Hdoc : forall existing,
             iterate_translate document tl sleep skip keep existing
               cache st
             = (Raise (HTTPError status), sent)).
  { intros existing. cbn [forallb] in Hp.
    apply andb_true_iff in Hp. destruct Hp as [Hk Hp].
    unfold document. rewrite iterate_translate_dict. cbn [for_items].
    unfold bind. rewrite (entry_value_recursed _ _ _ _ _ _ _ _ _ Hk).
    now rewrite (Hnest _ _ Hp). }
  split; [exact Ht | split; [exact Hdoc |]].
  intros skip0 keep0 nocache d st0 -> -> -> Hload.
  unfold main. rewrite (bind_ok _ Hload). unfold get_strings_from_file.
  unfold bind. now rewrite Hdoc.
Qed.

(** ** Two runs in succession *)

Lemma run_unfold data tl sleep skip keep d h :
  run data tl sleep skip keep None d h
  = match iterate_translate data tl sleep
            (match skip with None => [] | Some l => l end)
            (match keep with None => [] | Some l => l end)
            (match output_file d with Some e => e | None => JDict [] end)
            (Some true)
            (mkState (match cache_file d with
                      | Some c => c
                      | None => JDict []
                      end) h) with
    | (Ok results, st) =>
        (Ok (mkDisk (Some results) (Some results)),
         trace st ++ [PrintResultsSaved])
    | (Raise e, st) => (Raise e, trace st)
    end.
Proof.
  unfold run, main, load_global_cache, get_strings_from_file,
    save_results_file.
  destruct (cache_file d) as [c |];
    cbv beta iota delta [bind ret emit]; cbn [trace GLOBAL_CACHE];
    match goal with
    | |- context [iterate_translate ?a ?b ?c ?e ?f ?g ?i ?st] =>
        destruct (iterate_translate a b c e f g i st) as [[r | e'] st1]
    end; reflexivity.
Qed.

(** When the existing output document and the process cache are both the
    object [r] and [r] has the key, the loop stores the source value for a
    skipped key and the value of [r] otherwise, without any effect. *)
Lemma entry_value_rerun tl sleep skip keep cache r key value
      y st :
  GLOBAL_CACHE st = JDict r ->
  dict_get r key = Some y ->
  entry_value tl sleep skip keep (JDict r) cache key value st
  = (Ok (if str_in key skip then value else y), st).
Proof.
  destruct st as [g t]. cbn [GLOBAL_CACHE]. intros -> G.
  assert (Hin : str_in key (keys r) = true)
    by (apply str_in_In; eapply dict_get_In; eassumption).
  assert (T : truthy (JDict r) = true)
    by (destruct r; [discriminate | reflexivity]).
  unfold entry_value, keep_applies. destruct (str_in key skip); [reflexivity |].
  rewrite T.
  assert (Hcache :
            (cached <- in_global_cache key ;;
             if cached then g <- get_global_cache ;; lift (py_getitem g key)
             else iterate_translate value tl sleep skip keep
                    (JDict r) cache) (mkState (JDict r) t)
            = (Ok y, mkState (JDict r) t)).
  { cbv beta iota delta [bind lift in_global_cache get_global_cache
                           GLOBAL_CACHE py_in].
    rewrite Hin. cbn [py_getitem]. now rewrite G. }
  destruct (str_in key keep); cbn [negb].
  - cbv beta iota delta [bind lift]. cbn [py_getitem]. rewrite G.
    destruct (is_None y).
    + exact Hcache.
    + cbv beta iota delta [ret].
      destruct (ne_empty_str y); [reflexivity | exact Hcache].
  - exact Hcache.
Qed.


Lemma Forall2_impl_In {A B} (R R' : A -> B -> Prop) l r :
  Forall2 R l r ->
  (forall a b, In a l -> In b r -> R a b -> R' a b) ->
  Forall2 R' l r.
Proof.
  induction 1 as [| a b l r HR _ IH]; intros Himp.
  - constructor.
  - constructor.
    + apply Himp; [now left | now left | assumption].
    + apply IH. intros a' b' Ha Hb. apply Himp; now right.
Qed.


(** The result of a traversal of an object, as an object with the same keys
    in which the skipped keys have their source value. *)
Lemma first_run_result items tl sleep skip keep existing cache st out st' :
  NoDup (keys items) ->
  iterate_translate (JDict items) tl sleep skip keep existing
    cache st = (Ok out, st') ->
  exists r,
    out = JDict r /\ keys r = keys items /\
    Forall2 (fun kv kv' =>
               fst kv' = fst kv /\
               (str_in (fst kv) skip = true -> snd kv' = snd kv)) items r.
Proof.
  intros ND E.
  destruct (iterate_translate_dict_inv _ _ _ _ _ _ _ _ _ _ ND E)
    as [r [-> F]].
  exists r. split; [reflexivity |]. split.
  - exact (Forall2_keys
             (stored tl sleep skip keep existing cache
                (GLOBAL_CACHE st)) _ _ F).
  - eapply Forall2_impl; [| exact F].
    intros [k x] [k' y] [Hk [s [s' [_ Ey]]]]. cbn [fst snd] in *.
    split; [assumption |]. intros Hs.
    rewrite entry_value_skip in Ey by assumption. now inversion Ey.
Qed.


(** With any skip and keep lists, the second traversal returns and has no
    effect. *)
Lemma second_run_silent items tl sleep skip keep cache r st :
  keys r = keys items ->
  GLOBAL_CACHE st = JDict r ->
  exists out,
    iterate_translate (JDict items) tl sleep skip keep
      (JDict r) cache st = (Ok out, st).
Proof.
  intros Hkeys Hc. rewrite iterate_translate_dict.
  destruct (for_items_ok
              (fun key value res =>
                 v <- entry_value tl sleep skip keep
                        (JDict r) cache key value ;;
                 ret (dict_setitem res key v))
              (fun s => s = st) items) with (res := @nil (string * json))
                                            (st := st)
    as [res [st1 [E ->]]]; [| reflexivity |].
  - apply Forall_forall. intros [k x] Hin res s ->. cbn [fst snd].
    assert (Hk : In k (keys r)).
    { rewrite Hkeys. change k with (fst (k, x)). now apply in_map. }
    destruct (dict_get_keys _ _ Hk) as [y G].
    unfold bind. rewrite (entry_value_rerun _ _ _ _ _ _ _ _ _ _ Hc G).
    eexists; eexists; split; reflexivity.
  - rewrite (bind_ok _ E). now exists (JDict res).
Qed.


(** ** Live calls *)

Lemma live_calls_app s a b :
  live_calls s (a ++ b) = live_calls s a + live_calls s b.
Proof.
  induction a as [| [] a IH]; simpl; try assumption; [reflexivity |].
  rewrite IH. lia.
Qed.

(** A translation that the process cache does not answer sends exactly one
    request for the text, whatever the service replies, and none when the
    query cannot be encoded. *)
Lemma translate_string_live_call s tl sleep cache st :
  sleep_error sleep = None ->
  cache_misses cache (GLOBAL_CACHE st) s = true ->
  live_calls s
    (trace (snd (translate_string (JStr s) tl sleep cache st)))
  = (if encoded (query tl s) then 1 else 0) + live_calls s (trace st).
Proof.
  destruct st as [g t]. cbn [GLOBAL_CACHE trace]. intros Hsl Hm.
  pose proof (cache_lookup_misses cache s (mkState g t) Hm) as Hhit.
  unfold translate_string, time_sleep, encoded.
  rewrite (bind_ok _ Hhit), Hsl.
  destruct (urlencode (query tl s)) as [[] | e] eqn:Henc.
  2: { cbv beta iota delta [bind emit lift]. cbn [snd trace Nat.add].
       rewrite live_calls_app. cbn [live_calls]. lia. }
  change (1 + live_calls s t) with (S (live_calls s t)).
  change (lift (Ok tt)) with (fun st : state => (@Ok unit tt, st)).
  cbv beta iota delta [bind emit get_trace lift raise ret].
  cbn [trace GLOBAL_CACHE].
  assert (Hsent : live_calls s ((t ++ [Sleep sleep]) ++ [Request tl s])
                  = S (live_calls s t)).
  { rewrite !live_calls_app. cbn [live_calls].
    rewrite String.eqb_refl. lia. }
  destruct (urlopen (t ++ [Sleep sleep]) tl s) as [status body | e];
    [| exact Hsent].
  destruct (negb (Z.eqb status 200)).
  { cbn [snd trace]. rewrite live_calls_app, Hsent. cbn [live_calls]. lia. }
  destruct body as [rd |]; [| exact Hsent].
  destruct (py_in "translations" rd) as [[] |]; cbn [negb];
    [| cbn [snd trace]; rewrite live_calls_app, Hsent; cbn [live_calls]; lia
     | exact Hsent].
  destruct (py_getitem rd "translations") as [tr |]; [| exact Hsent].
  destruct (py_len tr) as [n |]; [| exact Hsent].
  assert (Hrest : forall t',
             live_calls s t' = S (live_calls s t) ->
             live_calls s
               (trace (snd (match py_getitem0 tr with
                            | Ok a =>
                                match py_getitem a "text" with
                                | Ok a0 =>
                                    (Ok (JStr (decode_text a0)),
                                     mkState g t')
                                | Raise e => (Raise e, mkState g t')
                                end
                            | Raise e => (Raise e, mkState g t')
                            end)))
             = S (live_calls s t)).
  { intros t' Ht'. destruct (py_getitem0 tr) as [a |]; [| exact Ht'].
    destruct (py_getitem a "text"); exact Ht'. }
  destruct (Nat.ltb 1 n); apply Hrest; [| exact Hsent].
  cbn [trace]. rewrite live_calls_app, Hsent. cbn [live_calls]. lia.
Qed.

(** C4, amended: after a run over an object document has written its
    files, a second run over the same document, whose process cache is
    read from the cache file the first run wrote (no key invalidated),
    returns without sending a request or sleeping, whatever the skip and
    keep lists (its only output is the closing message of
    [save_results_file]); within a run the process cache is never written;
    and each translation of a text that the process cache does not answer
    sends exactly one request for it, so a text met n times is sent n
    times (none is sent for a text whose query cannot be encoded). *)
Theorem warm_cache_rerun_makes_no_live_call :
  forall tl sleep,
    (forall items skip keep d0 h0 d1 h1 skip' keep' h,
        nodupb (keys items) = true ->
        run (JDict items) tl sleep skip keep None d0 h0 = (Ok d1, h1) ->
        exists d2,
          run (JDict items) tl sleep skip' keep' None d1 h
          = (Ok d2, h ++ [PrintResultsSaved])) /\
    (forall data skip keep existing cache st,
        GLOBAL_CACHE
          (snd (iterate_translate data tl sleep skip keep existing cache st))
        = GLOBAL_CACHE st) /\
    (forall s cache st,
        sleep_error sleep = None ->
        cache_misses cache (GLOBAL_CACHE st) s = true ->
        live_calls s
          (trace (snd (translate_string (JStr s) tl sleep cache st)))
        = (if encoded (query tl s) then 1 else 0)
          + live_calls s (trace st)).
Proof.
  intros. split; [| split].
  - intros * ND E. apply nodupb_NoDup in ND. rewrite run_unfold in *.
    match type of E with
    | context [iterate_translate ?a ?b ?c ?e ?f ?g ?i ?st] =>
        destruct (iterate_translate a b c e f g i st)
          as [[out | e'] st1] eqn:E1
    end; [| discriminate].
    inversion E; subst. cbn [output_file cache_file].
    destruct (first_run_result _ _ _ _ _ _ _ _ _ _ ND E1)
      as [r [-> [Hkeys _]]].
    destruct (second_run_silent items tl sleep
                (match skip' with None => [] | Some l => l end)
                (match keep' with None => [] | Some l => l end)
                (Some true) r (mkState (JDict r) h) Hkeys eq_refl)
      as [out E2].
    rewrite E2. eexists. reflexivity.
  - intros. apply keeps_cache_iterate_translate.
  - intros. now apply translate_string_live_call.
Qed.

(** ** Shape *)

Lemma json_eqb_leaf_refl v :
  match v with JStr _ | JList _ | JDict _ => False | _ => True end ->
  json_eqb_leaf v v = true.
Proof.
  destruct v as [| b | n | f | s | l | d]; simpl; try easy.
  - intros _. now destruct b.
  - intros _. apply Z.eqb_refl.
  - intros _. destruct f as [[] | [] | | [] m e]; try reflexivity;
      cbn [Bool.eqb andb]; now rewrite Pos.eqb_refl, Z.eqb_refl.
Qed.

Lemma same_shape_list l r :
  Forall2 (fun x y => same_shape x y = true) l r ->
  same_shape (JList l) (JList r) = true.
Proof.
  cbn [same_shape]. induction 1 as [| x y l r H _ IH].
  - reflexivity.
  - now rewrite H, IH.
Qed.

Lemma same_shape_dict d r :
  Forall2 (fun kv kv' =>
             fst kv' = fst kv /\ same_shape (snd kv) (snd kv') = true) d r ->
  same_shape (JDict d) (JDict r) = true.
Proof.
  cbn [same_shape]. induction 1 as [| [k x] [k' y] d r [Hk H] _ IH].
  - reflexivity.
  - cbn [fst snd] in *. subst k'. now rewrite String.eqb_refl, H, IH.
Qed.

Lemma same_shape_refl v : same_shape v v = true.
Proof.
  induction v as [| b | n | f | s | l IH | d IH] using json_nested_ind;
    try (now apply json_eqb_leaf_refl); try reflexivity.
  - apply same_shape_list. induction IH; constructor; assumption.
  - apply same_shape_dict. induction IH; constructor; auto.
Qed.

Lemma text_cache_ok_getitem cache g s v :
  text_cache_ok (Some cache) g = true ->
  py_getitem g s = Ok v -> exists t, v = JStr t.
Proof.
  destruct g as [| | | | | | c]; try discriminate.
  cbn [text_cache_ok py_getitem]. intros H.
  induction c as [| [k w] c IH]; cbn [dict_get]; [discriminate |].
  cbn [forallb snd] in H. apply andb_true_iff in H. destruct H as [Hw Hc].
  destruct (String.eqb s k).
  - intros E. inversion E; subst. destruct v; try discriminate. now eexists.
  - now apply IH.
Qed.

(** What [translate_string] returns for a string is a string, when the
    process cache can only answer with strings. *)
Lemma translate_string_str s tl sleep cache st out st' :
  text_cache_ok cache (GLOBAL_CACHE st) = true ->
  translate_string (JStr s) tl sleep cache st = (Ok out, st')
  -> exists t, out = JStr t.
Proof.
  destruct st as [g t0]. cbn [GLOBAL_CACHE]. intros Hc E.
  unfold translate_string in E.
  apply bind_inv in E. destruct E as [hit [st1 [Ehit E]]].
  destruct hit as [res |].
  - inversion E; subst. destruct cache as [b |]; [| discriminate].
    unfold cache_lookup, bind, get_global_cache in Ehit.
    cbn [GLOBAL_CACHE] in Ehit.
    destruct (py_getitem g s) as [w | []] eqn:G; try discriminate.
    cbv [emit ret] in Ehit. inversion Ehit; subst.
    exact (text_cache_ok_getitem _ _ _ _ Hc G).
  - clear Ehit Hc. revert E. unfold time_sleep.
    destruct (sleep_error sleep); [discriminate |].
    cbv beta iota delta [bind emit get_trace lift raise ret].
    destruct (urlencode (query tl s)) as [[] |]; [| discriminate].
    destruct (urlopen _ tl s) as [status body | e]; [| discriminate].
    destruct (negb (Z.eqb status 200)).
    { intros E. inversion E. now eexists. }
    destruct body as [rd |]; [| discriminate].
    destruct (py_in "translations" rd) as [[] |]; cbn [negb];
      [| intros E; inversion E; now eexists | discriminate].
    destruct (py_getitem rd "translations") as [tr |]; [| discriminate].
    destruct (py_len tr) as [n |]; [| discriminate].
    destruct (Nat.ltb 1 n);
      (destruct (py_getitem0 tr) as [a |]; [| discriminate]);
      (destruct (py_getitem a "text") as [w |]; [| discriminate]);
      intros E; inversion E; now eexists.
Qed.

Lemma entry_value_no_rule tl sleep skip keep existing cache key value st :
  str_in key skip = false ->
  str_in key keep && truthy existing = false ->
  not_in key (GLOBAL_CACHE st) = true ->
  entry_value tl sleep skip keep existing cache key value st
  = iterate_translate value tl sleep skip keep existing cache st.
Proof.
  intros Hs Hk Hg. unfold not_in in Hg.
  unfold entry_value, keep_applies. rewrite Hs.
  assert (Hkeep : (if negb (str_in key keep) then ret false
                   else if negb (truthy existing) then ret false
                        else v <- lift (py_getitem existing key) ;;
                             if is_None v then ret false
                             else v' <- lift (py_getitem existing key) ;;
                                  ret (ne_empty_str v')) st
                  = (Ok false, st)).
  { destruct (str_in key keep); [| reflexivity].
    destruct (truthy existing); [discriminate | reflexivity]. }
  rewrite (bind_ok _ Hkeep).
  cbv beta iota delta [bind in_global_cache get_global_cache lift].
  destruct (py_in key (GLOBAL_CACHE st)) as [[] | ]; try discriminate.
  reflexivity.
Qed.

Lemma wf_dict d :
  wf (JDict d) = true ->
  NoDup (keys d) /\ forall kv, In kv d -> wf (snd kv) = true.
Proof.
  cbn [wf]. intros H. apply andb_true_iff in H. destruct H as [H1 H2].
  split; [now apply nodupb_NoDup |].
  now rewrite forallb_forall in H2.
Qed.

(** C1, amended: for a source tree whose dictionaries have unique keys and
    any skip list, when no entry reached by the traversal is replaced by
    the keep rule or by the process cache and the process cache answers
    text lookups with strings only, the tree that [iterate_translate]
    returns has the same keys in the same order, arrays of the same length
    and order, and the same non-string leaves as the source; a string leaf
    faces a string leaf. *)
Theorem shape_preserved_without_substitution :
  forall tl sleep skip keep existing cache data st out st',
    wf data = true ->
    no_substitution skip keep existing (GLOBAL_CACHE st) data = true ->
    text_cache_ok cache (GLOBAL_CACHE st) = true ->
    iterate_translate data tl sleep skip keep existing cache
      st = (Ok out, st') ->
    same_shape data out = true.
Proof.
  intros tl sleep skip keep existing cache data.
  induction data as [| b | n | f | s | l IH | d IH] using json_nested_ind;
    intros st out st' Hwf Hno Hc E.
  - inversion E. reflexivity.
  - inversion E. now apply json_eqb_leaf_refl.
  - inversion E. now apply json_eqb_leaf_refl.
  - inversion E. now apply json_eqb_leaf_refl.
  - cbn [iterate_translate] in E. destruct (String.eqb s "").
    + inversion E. reflexivity.
    + destruct (translate_string_str _ _ _ _ _ _ _ Hc E) as [t ->].
      reflexivity.
  - cbn [iterate_translate] in E.
    apply bind_inv in E. destruct E as [r [st1 [E1 E]]].
    inversion E; subst. apply same_shape_list.
    cbn [wf no_substitution] in Hwf, Hno.
    rewrite forallb_forall in Hwf, Hno. rewrite Forall_forall in IH.
    refine (proj1 (list_comprehension_inv _
                     (fun s => GLOBAL_CACHE s = GLOBAL_CACHE st)
                     (fun x y => same_shape x y = true)
                     _ _ _ _ _ eq_refl E1)).
    apply Forall_forall. intros x Hx s y s' Hs Ey. split.
    + apply (IH x Hx s y s'); try rewrite Hs; auto.
    + rewrite <- Hs.
      exact (keeps_cache_eq _ _ _ _
               (keeps_cache_iterate_translate _ _ _ _ _ _ _) Ey).
  - destruct (wf_dict _ Hwf) as [ND Hwfd].
    destruct (iterate_translate_dict_inv _ _ _ _ _ _ _ _ _ _ ND E)
      as [r [-> F]].
    apply same_shape_dict. cbn [no_substitution] in Hno.
    rewrite forallb_forall in Hno. rewrite Forall_forall in IH.
    eapply Forall2_impl_In; [exact F |].
    intros [k x] [k' y] Hin _ [Hk [s [s' [Hs Ey]]]]. cbn [fst snd] in *.
    split; [assumption |].
    specialize (Hno _ Hin). cbn [fst snd] in Hno.
    destruct (str_in k skip) eqn:Hskip.
    + rewrite entry_value_skip in Ey by assumption. inversion Ey; subst.
      apply same_shape_refl.
    + cbn [orb] in Hno.
      apply andb_true_iff in Hno. destruct Hno as [Hno Hx].
      apply andb_true_iff in Hno. destruct Hno as [Hkeep Hg].
      apply negb_true_iff in Hkeep.
      rewrite entry_value_no_rule in Ey; try assumption;
        [| now rewrite Hs].
      apply (IH (k, x) Hin s y s'); try rewrite Hs; auto.
Qed.

(** * Further properties of the traversal *)

(** ** Nodes keep their keys and their length *)

(** X1: whatever the policy lists, the existing output document and the
    process cache hold, an object node with unique keys returns an object
    with the same keys in the same order, and an array node returns an
    array of the same length. *)
Theorem node_keeps_keys_and_length :
  forall tl sleep skip keep existing cache st out st',
    (forall items,
        nodupb (keys items) = true ->
        iterate_translate (JDict items) tl sleep skip keep existing cache st
        = (Ok out, st') ->
        exists res, out = JDict res /\ keys res = keys items) /\
    (forall l,
        iterate_translate (JList l) tl sleep skip keep existing cache st
        = (Ok out, st') ->
        exists r, out = JList r /\ List.length r = List.length l).
Proof.
  intros. split.
  - intros items ND E. apply nodupb_NoDup in ND.
    destruct (first_run_result _ _ _ _ _ _ _ _ _ _ ND E)
      as [r [-> [Hkeys _]]].
    now exists r.
  - intros l E. cbn [iterate_translate] in E.
    apply bind_inv in E. destruct E as [r [st1 [E1 E]]].
    inversion E; subst. exists r. split; [reflexivity |].
    symmetry. apply (@Forall2_length _ _ (fun _ _ => True)).
    refine (proj1 (list_comprehension_inv _ (fun _ => True)
                     (fun _ _ => True) l _ _ _ _ I E1)).
    apply Forall_forall. intros; split; exact I.
Qed.

(** ** The key rule of the process cache *)

Lemma entry_value_cached tl sleep skip keep existing cache c key value v st :
  str_in key skip = false ->
  str_in key keep && truthy existing = false ->
  GLOBAL_CACHE st = JDict c ->
  dict_get c key = Some v ->
  entry_value tl sleep skip keep existing cache key value st = (Ok v, st).
Proof.
  destruct st as [g t]. cbn [GLOBAL_CACHE]. intros Hs Hk -> G.
  assert (Hin : str_in key (keys c) = true)
    by (apply str_in_In; eapply dict_get_In; eassumption).
  unfold entry_value, keep_applies. rewrite Hs.
  assert (Hkeep : (if negb (str_in key keep) then ret false
                   else if negb (truthy existing) then ret false
                        else v <- lift (py_getitem existing key) ;;
                             if is_None v then ret false
                             else v' <- lift (py_getitem existing key) ;;
                                  ret (ne_empty_str v'))
                    (mkState (JDict c) t)
                  = (Ok false, mkState (JDict c) t)).
  { destruct (str_in key keep); [| reflexivity].
    destruct (truthy existing); [discriminate | reflexivity]. }
  rewrite (bind_ok _ Hkeep).
  cbv beta iota delta [bind in_global_cache get_global_cache lift
                         GLOBAL_CACHE py_in].
  rewrite Hin. cbn [py_getitem]. now rewrite G.
Qed.

Lemma for_items_same_step_inv step (I : state -> Prop) k x y l2 :
  (forall res s, I s -> step k x res s = step k y res s) ->
  (forall k0 x0 res s o s', I s -> step k0 x0 res s = (o, s') -> I s') ->
  forall l1 res st,
    I st ->
    for_items step (l1 ++ (k, x) :: l2) res st
    = for_items step (l1 ++ (k, y) :: l2) res st.
Proof.
  intros E Hinv. induction l1 as [| [k0 x0] l1 IH]; intros res st HI; simpl.
  - unfold bind. now rewrite E.
  - unfold bind. destruct (step k0 x0 res st) as [[r | e] st1] eqn:Es.
    + apply IH. exact (Hinv _ _ _ _ _ _ HI Es).
    + reflexivity.
Qed.

(** X2: a key that is not skipped, to which the keep rule cannot apply, and
    that is a key of the process cache takes the cached value, whatever the
    [cache] argument; the run is the same whatever the source holds at that
    key, so nothing below it is translated. *)
Theorem cache_rule_precedence :
  forall tl sleep skip keep existing cache c k v,
    str_in k skip = false ->
    str_in k keep && truthy existing = false ->
    dict_get c k = Some v ->
    (forall items x st out st',
        nodupb (keys items) = true ->
        dict_get items k = Some x ->
        GLOBAL_CACHE st = JDict c ->
        iterate_translate (JDict items) tl sleep skip keep existing cache st
        = (Ok out, st') ->
        exists res, out = JDict res /\ dict_get res k = Some v) /\
    (forall before after x y st,
        GLOBAL_CACHE st = JDict c ->
        iterate_translate (JDict (before ++ (k, x) :: after))
          tl sleep skip keep existing cache st
        = iterate_translate (JDict (before ++ (k, y) :: after))
            tl sleep skip keep existing cache st).
Proof.
  intros * Hs Hk G. split.
  - intros * ND Gx Hc E. apply nodupb_NoDup in ND.
    destruct (iterate_translate_dict_inv _ _ _ _ _ _ _ _ _ _ ND E)
      as [r [-> F]].
    exists r. split; [reflexivity |].
    destruct (Forall2_dict_get
                (stored tl sleep skip keep existing cache
                   (GLOBAL_CACHE st)) _ _ F _ _ Gx)
      as [w [Gw [s [s' [Hs' Ew]]]]].
    rewrite Hc in Hs'.
    rewrite (entry_value_cached _ _ _ _ _ _ _ _ _ _ _ Hs Hk Hs' G) in Ew.
    now inversion Ew; subst.
  - intros * Hc. rewrite !iterate_translate_dict. apply bind_congr.
    apply for_items_same_step_inv
      with (I := fun s => GLOBAL_CACHE s = JDict c); [| | exact Hc].
    + intros res s Hs'. unfold bind.
      now rewrite !(entry_value_cached _ _ _ _ _ _ _ _ _ _ _ Hs Hk Hs' G).
    + intros k0 x0 res s o s' Hs' Es. rewrite <- Hs'.
      refine (keeps_cache_eq _ _ _ _ _ Es).
      apply keeps_cache_bind;
        [apply keeps_cache_entry_value | intro; apply keeps_cache_ret].
Qed.

(** ** The keep list and the existing output document *)

Lemma for_items_ext_In step1 step2 items :
  Forall (fun kv => forall r st,
              step1 (fst kv) (snd kv) r st = step2 (fst kv) (snd kv) r st)
         items ->
  forall res st, for_items step1 items res st = for_items step2 items res st.
Proof.
  induction 1 as [| [k v] rest E _ IH]; intros res st; simpl.
  - reflexivity.
  - unfold bind. cbn [fst snd] in E. rewrite E.
    destruct (step2 k v res st) as [[r | e] st1]; [apply IH | reflexivity].
Qed.

Lemma list_comprehension_ext_In {A B} (f g : A -> M B) l :
  Forall (fun x => forall st, f x st = g x st) l ->
  forall st, list_comprehension f l st = list_comprehension g l st.
Proof.
  induction 1 as [| x xs E _ IH]; intros st; simpl.
  - reflexivity.
  - unfold bind. rewrite E. destruct (g x st) as [[y | e] st1];
      [| reflexivity].
    now rewrite IH.
Qed.

(** Two keep lists for which the test of the keep rule gives the same
    answer at every key give the same traversal. *)
Lemma iterate_translate_same_keep tl sleep skip keep keep' existing cache :
  (forall key st,
      keep_applies key keep existing st = keep_applies key keep' existing st)
  -> forall data st,
    iterate_translate data tl sleep skip keep existing cache st
    = iterate_translate data tl sleep skip keep' existing cache st.
Proof.
  intros Hk.
  induction data as [| b | n | f | s | l IH | d IH] using json_nested_ind;
    intros st; try reflexivity.
  - cbn [iterate_translate]. apply bind_congr.
    now apply list_comprehension_ext_In.
  - rewrite !iterate_translate_dict. apply bind_congr.
    apply for_items_ext_In. eapply Forall_impl; [| exact IH].
    intros [k x] Hx r s. cbn [fst snd] in *.
    apply bind_congr. unfold entry_value.
    destruct (str_in k skip); [reflexivity |].
    unfold bind. rewrite Hk.
    destruct (keep_applies k keep' existing s) as [[[] | e] s1];
      try reflexivity.
    destruct (in_global_cache k s1) as [[[] | e] s2]; try reflexivity.
    apply Hx.
Qed.

Lemma keep_applies_without_existing key keep existing st :
  truthy existing = false ->
  keep_applies key keep existing st = (Ok false, st).
Proof.
  intros H. unfold keep_applies. rewrite H.
  now destruct (str_in key keep).
Qed.

(** X3: when there is no output file yet, or it holds an empty document
    ([{}], [[]], [""], [0], [null]), the keep list has no effect on
    [get_strings_from_file]: result and events are those of a run without
    [--keep]. *)
Theorem keep_needs_an_existing_document :
  forall data output tl sleep skip keep cache st,
    match output with Some e => negb (truthy e) | None => true end = true ->
    get_strings_from_file data output tl sleep skip keep cache st
    = get_strings_from_file data output tl sleep skip None cache st.
Proof.
  intros * H. unfold get_strings_from_file.
  apply iterate_translate_same_keep. intros key s.
  rewrite !keep_applies_without_existing; try reflexivity;
    destruct output as [e |]; try reflexivity;
    now apply negb_true_iff in H.
Qed.

Lemma str_in_filter_other key k keep :
  key <> k ->
  str_in key (filter (fun k' => negb (String.eqb k' k)) keep)
  = str_in key keep.
Proof.
  intros Hne. induction keep as [| k0 keep IH]; [reflexivity |].
  cbn [filter]. destruct (String.eqb_spec k0 k) as [-> | Hk0]; cbn [negb].
  - unfold str_in in *. cbn [existsb]. rewrite IH.
    destruct (String.eqb_spec key k); [contradiction | reflexivity].
  - unfold str_in in *. cbn [existsb]. now rewrite IH.
Qed.

Lemma str_in_filter_same k keep :
  str_in k (filter (fun k' => negb (String.eqb k' k)) keep) = false.
Proof.
  apply str_in_not_In. intros Hin. apply filter_In in Hin.
  destruct Hin as [_ H]. now rewrite String.eqb_refl in H.
Qed.

(** X4: a key of the keep list whose existing value is [None] or the empty
    string is handled, at every depth, exactly as if it were not in the
    keep list. *)
Theorem keep_ignores_null_and_empty :
  forall tl sleep skip keep e cache k v data st,
    dict_get e k = Some v ->
    is_None v || negb (ne_empty_str v) = true ->
    iterate_translate data tl sleep skip keep (JDict e) cache st
    = iterate_translate data tl sleep skip
        (filter (fun k' => negb (String.eqb k' k)) keep) (JDict e) cache st.
Proof.
  intros * G Hv. apply iterate_translate_same_keep. intros key s.
  unfold keep_applies. destruct (String.eqb_spec key k) as [-> | Hne].
  - rewrite str_in_filter_same. cbn [negb].
    destruct (str_in k keep); [| reflexivity]. cbn [negb].
    assert (T : truthy (JDict e) = true)
      by (destruct e; [discriminate | reflexivity]).
    rewrite T. cbn [negb]. unfold bind, lift. cbn [py_getitem]. rewrite G.
    destruct (is_None v); [reflexivity |]. cbn [orb] in Hv.
    apply negb_true_iff in Hv. unfold ret. now rewrite Hv.
  - now rewrite str_in_filter_other.
Qed.

(** ** Answers of the process cache and of the service *)

(** X5: when a cache argument is given and the text is a key of the process
    cache, [translate_string] returns the cached value without sleeping or
    sending a request, and prints the reuse; with the cache argument
    [None] the process cache is not consulted and the same text is sent to
    the service (unless its query cannot be encoded). *)
Theorem cached_text_is_not_sent :
  forall s tl sleep b res st,
    py_getitem (GLOBAL_CACHE st) s = Ok res ->
    translate_string (JStr s) tl sleep (Some b) st
    = (Ok res,
       mkState (GLOBAL_CACHE st) (trace st ++ [PrintUsingCache s res])) /\
    (sleep_error sleep = None ->
     live_calls s
       (trace (snd (translate_string (JStr s) tl sleep None st)))
     = (if encoded (query tl s) then 1 else 0) + live_calls s (trace st)).
Proof.
  intros * G. split.
  - unfold translate_string, cache_lookup, bind, get_global_cache.
    rewrite G. reflexivity.
  - intros Hsl. now apply translate_string_live_call.
Qed.

(** X6: a response with status 200 whose body holds a non-empty list of
    candidates, the first with a ["text"], gives the text of the first
    candidate (through [str]); a line is printed when there is more than
    one candidate, and nothing else happens after the request. *)
Theorem first_candidate_is_returned :
  forall s tl sleep cache st d first more t,
    sleep_error sleep = None ->
    urlencode (query tl s) = Ok tt ->
    cache_misses cache (GLOBAL_CACHE st) s = true ->
    urlopen (trace st ++ [Sleep sleep]) tl s = Response 200 (Some (JDict d))
    -> dict_get d "translations" = Some (JList (JDict first :: more)) ->
    dict_get first "text" = Some t ->
    translate_string (JStr s) tl sleep cache st
    = (Ok (JStr (decode_text t)),
       mkState (GLOBAL_CACHE st)
         (trace st
            ++ [Sleep sleep; Request tl s]
            ++ match more with
               | [] => []
               | _ => [PrintMoreThanOne s (JList (JDict first :: more))]
               end)).
Proof.
  intros * Hsl Henc Hm Hr Gt Gx. destruct st as [g t0].
  cbn [GLOBAL_CACHE trace] in *.
  pose proof (cache_lookup_misses cache s (mkState g t0) Hm) as Hhit.
  assert (Hin : str_in "translations" (keys d) = true)
    by (apply str_in_In; eapply dict_get_In; eassumption).
  unfold translate_string, time_sleep. rewrite (bind_ok _ Hhit), Hsl.
  query_encoded Henc.
  cbv beta iota delta [bind emit get_trace GLOBAL_CACHE trace lift].
  rewrite Hr. cbn [Z.eqb Pos.eqb negb py_in]. rewrite Hin. cbn [negb].
  cbn [py_getitem]. rewrite Gt. cbn [py_len py_getitem0 py_getitem].
  rewrite Gx. destruct more as [| c2 more]; cbn [List.length Nat.ltb Nat.leb].
  - cbv [ret]. rewrite <- app_assoc. reflexivity.
  - cbv [ret]. rewrite <- !app_assoc. reflexivity.
Qed.


(** ** Failures that the service reports *)

Lemma list_comprehension_same {A} (f : A -> M A) (I : state -> Prop) l :
  Forall (fun x => forall st,
              I st -> exists st', f x st = (Ok x, st') /\ I st') l ->
  forall st,
    I st -> exists st', list_comprehension f l st = (Ok l, st') /\ I st'.
Proof.
  induction 1 as [| x xs Hx _ IH]; intros st HI; simpl.
  - exists st. now split.
  - destruct (Hx _ HI) as [st1 [E1 HI1]].
    destruct (IH _ HI1) as [st2 [E2 HI2]].
    exists st2. split; [| assumption].
    rewrite (bind_ok _ E1), (bind_ok _ E2). reflexivity.
Qed.

(** When each request is answered by a reported failure, the traversal of
    a tree in which nothing is substituted returns the tree itself. *)
Lemma failing_service_returns_source tl sleep skip keep existing cache g :
  sleep_error sleep = None ->
  (forall h s, failure_report s (urlopen h tl s) <> None) ->
  forall data st,
    GLOBAL_CACHE st = g ->
    wf data = true ->
    no_substitution skip keep existing g data = true ->
    all_texts (fun s => cache_misses cache g s && encoded (query tl s)) data
    = true ->
    exists st',
      iterate_translate data tl sleep skip keep existing cache st
      = (Ok data, st') /\
      GLOBAL_CACHE st' = g.
Proof.
  intros Hsl Hf.
  induction data as [| b | n | f | s | l IH | d IH] using json_nested_ind;
    intros st Hg Hwf Hno Ht;
    try (exists st; split; [reflexivity | assumption]).
  - cbn [iterate_translate]. cbn [all_texts] in Ht.
    destruct (String.eqb s "");
      [exists st; split; [reflexivity | assumption] |].
    cbn [orb] in Ht. apply andb_true_iff in Ht. destruct Ht as [Hm Henc].
    unfold encoded in Henc.
    destruct (urlencode (query tl s)) as [[] |] eqn:Eq; [| discriminate].
    destruct (failure_report s (urlopen (trace st ++ [Sleep sleep]) tl s))
      as [report |] eqn:F; [| now destruct (Hf _ _ F)].
    rewrite <- Hg in Hm.
    rewrite (translate_string_failure _ _ _ _ _ _ Hsl Eq Hm F).
    eexists. split; [reflexivity | exact Hg].
  - cbn [iterate_translate]. cbn [wf no_substitution all_texts] in *.
    rewrite forallb_forall in Hwf, Hno, Ht. rewrite Forall_forall in IH.
    destruct (list_comprehension_same
                (fun value => iterate_translate value tl sleep skip keep
                                existing cache)
                (fun s => GLOBAL_CACHE s = g) l) with (st := st)
      as [st1 [E HI]]; [| assumption |].
    + apply Forall_forall. intros x Hx s Hs. apply IH; auto.
    + rewrite (bind_ok _ E). eexists. split; [reflexivity | exact HI].
  - destruct (wf_dict _ Hwf) as [ND Hwfd].
    cbn [no_substitution all_texts] in *.
    rewrite forallb_forall in Hno, Ht. rewrite Forall_forall in IH.
    rewrite iterate_translate_dict.
    assert (E0 : for_items
                   (fun key value res =>
                      v <- entry_value tl sleep skip keep existing cache
                             key value ;;
                      ret (dict_setitem res key v)) d [] st
                 = (r <- list_comprehension
                           (fun kv =>
                              v <- entry_value tl sleep skip keep existing
                                     cache (fst kv) (snd kv) ;;
                              ret (fst kv, v)) d ;;
                    ret ([] ++ r)) st)
      by (apply for_items_entries; exact ND).
    destruct (list_comprehension_same
                (fun kv =>
                   v <- entry_value tl sleep skip keep existing cache
                          (fst kv) (snd kv) ;;
                   ret (fst kv, v))
                (fun s => GLOBAL_CACHE s = g) d) with (st := st)
      as [st1 [E HI]]; [| assumption |].
    + apply Forall_forall. intros [k x] Hin s Hs. cbn [fst snd].
      specialize (Hno _ Hin). specialize (Ht _ Hin). cbn [fst snd] in *.
      destruct (str_in k skip) eqn:Hskip.
      * rewrite (bind_ok _ (entry_value_skip _ _ _ _ _ _ _ _ _ Hskip)).
        exists s. now split.
      * cbn [orb] in Hno.
        apply andb_true_iff in Hno. destruct Hno as [Hno Hx].
        apply andb_true_iff in Hno. destruct Hno as [Hkeep Hc].
        apply negb_true_iff in Hkeep. rewrite <- Hs in Hc.
        destruct (IH (k, x) Hin s Hs (Hwfd _ Hin) Hx Ht) as [s' [Ex Hs']].
        cbn [snd] in Ex.
        rewrite <- (entry_value_no_rule _ _ _ _ _ _ _ _ _ Hskip Hkeep Hc)
          in Ex.
        rewrite (bind_ok _ Ex). exists s'. now split.
    + unfold bind at 1. rewrite E0. rewrite (bind_ok _ E).
      eexists. split; [reflexivity | exact HI].
Qed.

(** X19: a failure that the response itself reports (a status other than
    200, or status 200 and no ["translations"] in the decoded body) costs
    one sleep and one request, is printed, and leaves the source text in
    place; and when every request is answered by such a failure, the
    traversal of a tree in which nothing is substituted (unique keys, each
    key skipped or untouched by the keep rule and the process cache, every
    text missed by the text lookup and encoded) returns the tree itself. *)
Theorem reported_failure_leaves_the_source_text :
  forall tl sleep cache,
    sleep_error sleep = None ->
    (forall s st report,
        urlencode (query tl s) = Ok tt ->
        cache_misses cache (GLOBAL_CACHE st) s = true ->
        failure_report s (urlopen (trace st ++ [Sleep sleep]) tl s)
        = Some report ->
        translate_string (JStr s) tl sleep cache st
        = (Ok (JStr s),
           mkState (GLOBAL_CACHE st)
             (trace st ++ [Sleep sleep; Request tl s; report]))) /\
    (forall skip keep existing data st,
        (forall h s, failure_report s (urlopen h tl s) <> None) ->
        wf data = true ->
        no_substitution skip keep existing (GLOBAL_CACHE st) data = true ->
        all_texts (fun s => cache_misses cache (GLOBAL_CACHE st) s
                            && encoded (query tl s)) data = true ->
        fst (iterate_translate data tl sleep skip keep existing cache st)
        = Ok data).
Proof.
  intros * Hsl. split.
  - intros s st report Henc Hm Hf. now apply translate_string_failure.
  - intros * Hf Hwf Hno Ht.
    destruct (failing_service_returns_source tl sleep skip keep existing
                cache (GLOBAL_CACHE st) Hsl Hf data st eq_refl Hwf Hno Ht)
      as [st' [E _]].
    now rewrite E.
Qed.

(** ** Pacing *)

Lemma float_eqb_refl x : float_eqb x x = true.
Proof.
  destruct x as [[] | [] | | [] m e]; try reflexivity;
    cbn [float_eqb Bool.eqb andb]; now rewrite Pos.eqb_refl, Z.eqb_refl.
Qed.

Lemma sleep_pending_cons e a :
  a <> [] -> sleep_pending (e :: a) = sleep_pending a.
Proof. destruct a as [| e2 a]; [easy |]. now destruct e. Qed.

Lemma sleep_pending_app a b :
  b <> [] -> sleep_pending (a ++ b) = sleep_pending b.
Proof.
  intros Hb. induction a as [| e a IH]; [reflexivity |].
  cbn [app]. rewrite sleep_pending_cons; [exact IH |].
  destruct a; [exact Hb | discriminate].
Qed.

Lemma paced_app sleep tl b :
  paced sleep tl b = true ->
  forall a,
    paced sleep tl a = true -> sleep_pending a = false ->
    paced sleep tl (a ++ b) = true.
Proof.
  intros Hb.
  assert (H : forall n a,
             List.length a <= n ->
             paced sleep tl a = true -> sleep_pending a = false ->
             paced sleep tl (a ++ b) = true).
  { induction n as [| n IH]; intros a Hlen Ha Hp.
    - destruct a; [exact Hb | cbn in Hlen; lia].
    - destruct a as [| e a]; [exact Hb |].
      destruct a as [| e2 a].
      + destruct e; try discriminate; cbn [app paced]; exact Hb.
      + rewrite sleep_pending_cons in Hp by discriminate.
        destruct e; cbn [app paced] in *;
          try (apply (IH (e2 :: a)); [cbn in *; lia | exact Ha | exact Hp]);
          try discriminate.
        apply andb_true_iff in Ha. destruct Ha as [Hd Ha].
        rewrite Hd. cbn [andb].
        destruct e2; try discriminate.
        apply andb_true_iff in Ha. destruct Ha as [Hl Ha].
        rewrite Hl. cbn [andb].
        destruct a as [| e3 a]; [exact Hb |].
        rewrite sleep_pending_cons in Hp by discriminate.
        apply (IH (e3 :: a)); [cbn in *; lia | exact Ha | exact Hp]. }
  intros a. now apply (H (List.length a)).
Qed.

Lemma stays_paced_same sleep tl {A} (m : M A) :
  (forall st, trace (snd (m st)) = trace st) -> stays_paced sleep tl m.
Proof.
  intros H st. exists []. rewrite app_nil_r.
  split; [apply H | split; [reflexivity | discriminate]].
Qed.

Lemma stays_paced_ret sleep tl {A} (a : A) : stays_paced sleep tl (ret a).
Proof. now apply stays_paced_same. Qed.

Lemma stays_paced_lift sleep tl {A} (o : outcome A) :
  stays_paced sleep tl (lift o).
Proof. now apply stays_paced_same. Qed.

Lemma stays_paced_bind sleep tl {A B} (m : M A) (k : A -> M B) :
  stays_paced sleep tl m ->
  (forall a, stays_paced sleep tl (k a)) ->
  stays_paced sleep tl (bind m k).
Proof.
  intros Hm Hk st. unfold bind. destruct (Hm st) as [t1 [E1 [P1 U1]]].
  destruct (m st) as [[a | e] st1]; cbn [fst snd] in *.
  - destruct (Hk a st1) as [t2 [E2 [P2 U2]]]. exists (t1 ++ t2).
    assert (N1 : sleep_pending t1 = false).
    { destruct (sleep_pending t1); [| reflexivity].
      discriminate (U1 eq_refl). }
    rewrite E2, E1, app_assoc. split; [reflexivity |].
    split; [now apply paced_app |].
    destruct t2 as [| e2 t2].
    + rewrite app_nil_r, N1. discriminate.
    + rewrite sleep_pending_app by discriminate. exact U2.
  - exists t1. split; [exact E1 | split; [exact P1 |]].
    intros Hp. specialize (U1 Hp). now inversion U1.
Qed.

Lemma stays_paced_list_comprehension sleep tl {A B} (f : A -> M B) l :
  Forall (fun x => stays_paced sleep tl (f x)) l ->
  stays_paced sleep tl (list_comprehension f l).
Proof.
  induction 1 as [| x xs Hx _ IH]; simpl.
  - apply stays_paced_ret.
  - apply stays_paced_bind; [assumption | intros y].
    apply stays_paced_bind; [assumption | intros ys].
    apply stays_paced_ret.
Qed.

Lemma stays_paced_for_items sleep tl step items :
  Forall (fun kv => forall res,
              stays_paced sleep tl (step (fst kv) (snd kv) res)) items ->
  forall res, stays_paced sleep tl (for_items step items res).
Proof.
  induction 1 as [| [k x] rest Hx _ IH]; intros res; simpl.
  - apply stays_paced_ret.
  - apply stays_paced_bind; [apply Hx | assumption].
Qed.

Lemma stays_paced_keep_applies sleep tl key keep existing :
  stays_paced sleep tl (keep_applies key keep existing).
Proof.
  apply stays_paced_same. intros st. unfold keep_applies.
  destruct (str_in key keep); [| reflexivity].
  destruct (truthy existing); [| reflexivity].
  cbv beta iota delta [negb bind lift ret].
  destruct (py_getitem existing key) as [v | e]; [| reflexivity].
  destruct (is_None v); reflexivity.
Qed.

Lemma stays_paced_in_global_cache sleep tl key :
  stays_paced sleep tl (in_global_cache key).
Proof.
  apply stays_paced_same. intros st.
  unfold in_global_cache, bind, get_global_cache, lift.
  destruct (py_in key (GLOBAL_CACHE st)); reflexivity.
Qed.

Lemma stays_paced_emit sleep tl e :
  is_print e = true -> stays_paced sleep tl (emit e).
Proof.
  intros He st. exists [e]. split; [reflexivity |].
  destruct e; try discriminate; split; try reflexivity; discriminate.
Qed.

(** The only exception of [urlencode]. *)
Lemma urlencode_error values e :
  urlencode values = Raise e -> e = UnicodeEncodeError.
Proof.
  induction values as [| v rest IH]; cbn [urlencode]; [discriminate |].
  unfold str_encode. destruct (has_surrogate v); [| exact IH].
  intros E. now inversion E.
Qed.

(** The sleep, the encoding of the query and the request. *)
Lemma stays_paced_request sleep tl s {A} (k : list event -> M A) :
  (forall h, stays_paced sleep tl (k h)) ->
  stays_paced sleep tl
    (time_sleep sleep ;;;
     lift (urlencode (query tl s)) ;;;
     history <- get_trace ;;
     emit (Request tl s) ;;;
     k history).
Proof.
  intros Hk [g t]. unfold time_sleep.
  destruct (sleep_error sleep) as [e |].
  { exists []. rewrite app_nil_r.
    split; [reflexivity | split; [reflexivity | discriminate]]. }
  cbv beta iota delta [bind emit get_trace lift]. cbn [trace GLOBAL_CACHE].
  destruct (urlencode (query tl s)) as [[] | e] eqn:Henc.
  - destruct (Hk (t ++ [Sleep sleep])
                (mkState g ((t ++ [Sleep sleep]) ++ [Request tl s])))
      as [t2 [E2 [P2 U2]]].
    cbn [trace] in E2. exists ([Sleep sleep; Request tl s] ++ t2).
    split; [rewrite E2, <- !app_assoc; reflexivity |].
    split.
    + apply paced_app; [exact P2 | | reflexivity].
      cbn [paced]. now rewrite float_eqb_refl, String.eqb_refl.
    + destruct t2 as [| e2 t2]; [discriminate |].
      rewrite sleep_pending_app by discriminate. exact U2.
  - exists [Sleep sleep]. split; [reflexivity |]. cbn [paced fst].
    rewrite float_eqb_refl. split; [reflexivity |].
    intros _. now rewrite (urlencode_error _ _ Henc).
Qed.

Lemma stays_paced_translate_string text tl sleep cache :
  stays_paced sleep tl (translate_string text tl sleep cache).
Proof.
  destruct text as [| b | n | f | s | l | d];
    try (now apply stays_paced_same).
  unfold translate_string. apply stays_paced_bind.
  { destruct cache as [b |]; [| apply stays_paced_ret].
    unfold cache_lookup. apply stays_paced_bind;
      [now apply stays_paced_same | intros g].
    destruct (py_getitem g s) as [res | e].
    - apply stays_paced_bind;
        [now apply stays_paced_emit | intro; apply stays_paced_ret].
    - destruct e; now apply stays_paced_same. }
  intros [res |]; [apply stays_paced_ret |].
  apply stays_paced_request. intros history.
  destruct (urlopen history tl s) as [status body | e];
    [| now apply stays_paced_same].
  destruct (negb (Z.eqb status 200)).
  { apply stays_paced_bind;
      [now apply stays_paced_emit | intro; apply stays_paced_ret]. }
  destruct body as [rd |]; [| now apply stays_paced_same].
  apply stays_paced_bind; [apply stays_paced_lift | intros present].
  destruct (negb present).
  { apply stays_paced_bind;
      [now apply stays_paced_emit | intro; apply stays_paced_ret]. }
  apply stays_paced_bind; [apply stays_paced_lift | intros tr].
  apply stays_paced_bind; [apply stays_paced_lift | intros n].
  apply stays_paced_bind.
  { destruct (Nat.ltb 1 n);
      [now apply stays_paced_emit | apply stays_paced_ret]. }
  intros _.
  apply stays_paced_bind; [apply stays_paced_lift | intros first].
  apply stays_paced_bind; [apply stays_paced_lift | intros t].
  apply stays_paced_ret.
Qed.

(** X8: throughout a traversal the trace only grows, and in what is added
    every request is for the given target locale and comes right after a
    sleep of the configured duration: no request is sent without the
    delay, whatever the tree, the policy and the answers of the service.
    A sleep is followed by its request, except when the query cannot be
    encoded: the sleep is then the last event and the traversal raises
    [UnicodeEncodeError]. *)
Theorem requests_are_paced :
  forall data tl sleep skip keep existing cache st,
    exists t',
      trace (snd (iterate_translate data tl sleep skip keep existing cache
                    st))
      = trace st ++ t' /\
      paced sleep tl t' = true /\
      (sleep_pending t' = true ->
       fst (iterate_translate data tl sleep skip keep existing cache st)
       = Raise UnicodeEncodeError).
Proof.
  intros data tl sleep skip keep existing cache.
  change (stays_paced sleep tl
            (iterate_translate data tl sleep skip keep existing cache)).
  induction data as [| b | n | f | s | l IH | d IH] using json_nested_ind;
    cbn [iterate_translate]; try apply stays_paced_ret.
  - destruct (String.eqb s ""); [apply stays_paced_ret |].
    apply stays_paced_translate_string.
  - apply stays_paced_bind; [| intro; apply stays_paced_ret].
    now apply stays_paced_list_comprehension.
  - apply stays_paced_bind; [| intro; apply stays_paced_ret].
    apply stays_paced_for_items.
    eapply Forall_impl; [| exact IH]. intros [k x] Hx res. cbn [fst snd] in *.
    destruct (str_in k skip); [apply stays_paced_ret |].
    apply stays_paced_bind; [apply stays_paced_keep_applies | intros kept].
    destruct kept.
    + apply stays_paced_bind; [apply stays_paced_lift |].
      intro; apply stays_paced_ret.
    + apply stays_paced_bind; [apply stays_paced_in_global_cache |].
      intros c. destruct c.
      * apply stays_paced_bind;
          [apply stays_paced_same; reflexivity | intros g].
        apply stays_paced_bind; [apply stays_paced_lift |].
        intro; apply stays_paced_ret.
      * apply stays_paced_bind; [assumption | intro; apply stays_paced_ret].
Qed.

(** ** The cache file *)

Lemma dict_pop_keys c k key : In key (keys (dict_pop c k)) -> In key (keys c).
Proof.
  induction c as [| [k0 w] c IH]; simpl; [easy |].
  destruct (String.eqb k k0); simpl.
  - intros H. now right.
  - intros [H | H]; [now left | right; now apply IH].
Qed.

Lemma dict_pop_NoDup c k : NoDup (keys c) -> NoDup (keys (dict_pop c k)).
Proof.
  induction c as [| [k0 w] c IH]; simpl; intros ND; [constructor |].
  inversion ND as [| ? ? Hnot ND']; subst.
  destruct (String.eqb k k0); [assumption |]. simpl. constructor.
  - intros Hin. apply Hnot. eapply dict_pop_keys. exact Hin.
  - now apply IH.
Qed.

Lemma dict_pop_get_same c k :
  NoDup (keys c) -> dict_get (dict_pop c k) k = None.
Proof.
  induction c as [| [k0 w] c IH]; simpl; intros ND; [reflexivity |].
  inversion ND as [| ? ? Hnot ND']; subst.
  destruct (String.eqb_spec k k0) as [-> | Hne].
  - destruct (dict_get c k0) as [v |] eqn:G; [| reflexivity].
    elim Hnot. eapply dict_get_In. exact G.
  - simpl. destruct (String.eqb_spec k k0); [contradiction | now apply IH].
Qed.

Lemma dict_pop_get_other c k key :
  key <> k -> dict_get (dict_pop c k) key = dict_get c key.
Proof.
  intros Hne. induction c as [| [k0 w] c IH]; simpl; [reflexivity |].
  destruct (String.eqb_spec k k0) as [-> | Hk0].
  - destruct (String.eqb_spec key k0); [contradiction | reflexivity].
  - simpl. now rewrite IH.
Qed.

Lemma pop_keys_get c nocache :
  NoDup (keys c) ->
  forall key,
    dict_get (pop_keys c nocache) key
    = if str_in key nocache then None else dict_get c key.
Proof.
  unfold pop_keys. revert c.
  induction nocache as [| k ks IH]; intros c ND key; [reflexivity |].
  cbn [fold_left]. rewrite IH by now apply dict_pop_NoDup.
  unfold str_in. cbn [existsb]. fold (str_in key ks).
  destruct (str_in key ks); [now rewrite orb_true_r |]. rewrite orb_false_r.
  destruct (String.eqb_spec key k) as [-> | Hne].
  - now apply dict_pop_get_same.
  - now apply dict_pop_get_other.
Qed.

Lemma pop_all_dict nocache :
  forall c t,
    pop_all nocache (mkState (JDict c) t)
    = (Ok tt, mkState (JDict (pop_keys c nocache)) t).
Proof.
  induction nocache as [| k ks IH]; intros c t; [reflexivity |].
  cbn [pop_all]. unfold bind, global_cache_pop. cbn [GLOBAL_CACHE trace].
  now rewrite IH.
Qed.

(** X9: the keys given to [--nocache] are removed from the process cache
    read from the cache file and the other keys keep their values; when
    the cache file does not hold an object (the mirror of a source that is
    an array, a string, a number), the removal raises before anything is
    translated: [TypeError] for an array, [AttributeError] otherwise. *)
Theorem nocache_removes_the_keys :
  forall d nocache st,
    (forall c,
        cache_file d = Some (JDict c) ->
        nodupb (keys c) = true ->
        load_global_cache d (Some nocache) st
        = (Ok tt, mkState (JDict (pop_keys c nocache)) (trace st)) /\
        forall key,
          dict_get (pop_keys c nocache) key
          = if str_in key nocache then None else dict_get c key) /\
    (forall v key rest,
        cache_file d = Some v ->
        nocache = key :: rest ->
        match v with JDict _ => False | _ => True end ->
        fst (load_global_cache d (Some nocache) st)
        = Raise (match v with JList _ => TypeError | _ => AttributeError end)).
Proof.
  intros. split.
  - intros c Hd ND. apply nodupb_NoDup in ND. split.
    + unfold load_global_cache. rewrite Hd. unfold bind.
      now rewrite pop_all_dict.
    + now apply pop_keys_get.
  - intros v key rest Hd -> Hv. unfold load_global_cache. rewrite Hd.
    destruct v; try contradiction; reflexivity.
Qed.

(** X10: a run that completes leaves one and the same document in the
    output file and in the cache file, the document that
    [get_strings_from_file] returned: the cache file is a copy of the
    output, keyed like the source, not a table from source texts to
    translations. *)
Theorem cache_file_mirrors_output :
  forall data tl sleep skip keep nocache d h d' t,
    run data tl sleep skip keep nocache d h = (Ok d', t) ->
    exists results st0 st1,
      d' = mkDisk (Some results) (Some results) /\
      get_strings_from_file data (output_file d) tl sleep skip keep
        (Some true) st0 = (Ok results, st1).
Proof.
  intros * E. unfold run, main in E.
  destruct (bind _ _ _) as [r st] eqn:Em in E.
  inversion E; subst. clear E.
  apply bind_inv in Em. destruct Em as [u [st0 [_ Em]]].
  apply bind_inv in Em. destruct Em as [results [st1 [Eg Es]]].
  exists results, st0, st1. split; [| exact Eg].
  unfold save_results_file, bind, emit, ret in Es. now inversion Es.
Qed.

(** X11: the cache file depends on the locale only, so it is shared by the
    source documents translated to that locale: after a run over a
    document [A], a run over another document [B] that reads the same
    cache file gives, at every key [B] has in common with the top level of
    [A] (not skipped, no keep list), the value the first run wrote for
    [A], whatever [B] holds there. *)
Theorem cache_file_is_shared_between_documents :
  forall tl sleep itemsA skipA keepA d0 h0 d1 h1 itemsB skipB out h d2 h2 k x,
    nodupb (keys itemsA) = true ->
    nodupb (keys itemsB) = true ->
    run (JDict itemsA) tl sleep skipA keepA None d0 h0 = (Ok d1, h1) ->
    In k (keys itemsA) ->
    dict_get itemsB k = Some x ->
    str_in k skipB = false ->
    run (JDict itemsB) tl sleep (Some skipB) None None
      (mkDisk out (cache_file d1)) h = (Ok d2, h2) ->
    exists rA rB v,
      output_file d1 = Some (JDict rA) /\
      output_file d2 = Some (JDict rB) /\
      dict_get rA k = Some v /\ dict_get rB k = Some v.
Proof.
  intros * NDA NDB EA HkA GB Hskip EB.
  rewrite run_unfold in EA, EB.
  match type of EA with
  | context [iterate_translate ?a ?b ?c ?e ?f ?g ?i ?st] =>
      destruct (iterate_translate a b c e f g i st) as [[outA | eA] stA]
        eqn:E1
  end; [| discriminate].
  inversion EA; subst. clear EA. cbn [output_file cache_file] in *.
  destruct (first_run_result _ _ _ _ _ _ _ _ _ _
              (proj1 (nodupb_NoDup _) NDA) E1) as [rA [-> [HkeysA _]]].
  assert (HinA : In k (keys rA)) by now rewrite HkeysA.
  destruct (dict_get_keys _ _ HinA) as [v Gv].
  match type of EB with
  | context [iterate_translate ?a ?b ?c ?e ?f ?g ?i ?st] =>
      destruct (iterate_translate a b c e f g i st) as [[outB | eB] stB]
        eqn:E2
  end; [| discriminate].
  inversion EB; subst. clear EB. cbn [output_file].
  destruct (proj1 (cache_rule_precedence tl sleep skipB []
                     match out with Some e => e | None => JDict [] end
                     (Some true) rA k v Hskip eq_refl Gv)
              itemsB x (mkState (JDict rA) h) _ _ NDB GB eq_refl E2)
    as [rB [-> GrB]].
  now exists rA, rB, v.
Qed.

End Program.

(** * Properties of the command line *)

Section Console.

(** [int] on a typed text, [str.lower] and [os.path.exists]. *)
Variable int_of_str : string -> option Z.
Variable str_lower : string -> string.
Variable path_exists : string -> bool.

(** ** Suffixes and paths *)

Lemma string_length_app a b :
  String.length (a ++ b)%string = String.length a + String.length b.
Proof. induction a as [| c a IH]; simpl; [reflexivity | now rewrite IH]. Qed.

Lemma ends_with_app suffix a b :
  ends_with suffix b = true -> ends_with suffix (a ++ b)%string = true.
Proof.
  intros H. induction a as [| c a IH]; [exact H |].
  cbn [String.append ends_with]. rewrite IH. apply orb_true_r.
Qed.

Lemma ends_with_join suffix a b :
  ends_with suffix b = true -> ends_with suffix (os_path_join a b) = true.
Proof.
  intros H. unfold os_path_join.
  destruct (String.prefix "/" b); [exact H |].
  destruct (String.eqb a "" || ends_with "/" a).
  - now apply ends_with_app.
  - apply ends_with_app. now apply (ends_with_app suffix "/" b).
Qed.

Lemma with_json_suffix_ends name :
  ends_with ".json" (with_json_suffix name) = true.
Proof.
  unfold with_json_suffix. destruct (ends_with ".json" name) eqn:E.
  - exact E.
  - now apply ends_with_app.
Qed.

Lemma split_without_slash s :
  has_char "/" s = false -> split_at_last_slash s = None.
Proof.
  induction s as [| c s IH]; [reflexivity |]. cbn [has_char].
  intros H. apply orb_false_iff in H. destruct H as [Hc Hs].
  cbn [split_at_last_slash]. now rewrite IH, Hc.
Qed.

Lemma split_at_the_slash dir file :
  has_char "/" file = false ->
  split_at_last_slash (dir ++ "/" ++ file)%string
  = Some ((dir ++ "/")%string, file).
Proof.
  intros H. induction dir as [| c dir IH].
  - cbn. now rewrite split_without_slash.
  - cbn [String.append split_at_last_slash] in *. now rewrite IH.
Qed.

Lemma all_slashes_ends dir :
  dir <> EmptyString -> all_slashes dir = true -> ends_with "/" dir = true.
Proof.
  induction dir as [| c dir IH]; [easy |]. intros _ H.
  cbn [all_slashes] in H. apply andb_true_iff in H. destruct H as [Hc Hd].
  apply Ascii.eqb_eq in Hc. subst c. cbn [ends_with].
  destruct dir as [| c' dir]; [reflexivity |].
  rewrite IH; [apply orb_true_r | discriminate | exact Hd].
Qed.

Lemma all_slashes_app a b :
  all_slashes (a ++ b)%string = all_slashes a && all_slashes b.
Proof.
  induction a as [| c a IH]; [reflexivity |].
  cbn [String.append all_slashes]. now rewrite IH, andb_assoc.
Qed.

Lemma rstrip_slashes_dir dir :
  dir <> EmptyString ->
  ends_with "/" dir = false ->
  rstrip_slashes (dir ++ "/")%string = dir.
Proof.
  induction dir as [| c dir IH]; [easy |]. intros _ H.
  assert (Hall : all_slashes (String c dir ++ "/")%string = false).
  { rewrite all_slashes_app.
    destruct (all_slashes (String c dir)) eqn:E; [| reflexivity].
    rewrite all_slashes_ends in H; [discriminate | discriminate | exact E]. }
  cbn [String.append rstrip_slashes] in *. rewrite Hall.
  cbn [ends_with] in H. apply orb_false_iff in H. destruct H as [_ H].
  destruct dir as [| c' dir]; [reflexivity |].
  rewrite IH; [reflexivity | discriminate | exact H].
Qed.

Lemma dirname_of_file dir file :
  dir <> EmptyString ->
  ends_with "/" dir = false ->
  has_char "/" file = false ->
  os_path_dirname (dir ++ "/" ++ file)%string = dir.
Proof.
  intros Hd He Hf. unfold os_path_dirname.
  rewrite split_at_the_slash by exact Hf.
  rewrite all_slashes_app.
  destruct (all_slashes dir) eqn:E.
  - rewrite all_slashes_ends in He; [discriminate | exact Hd | exact E].
  - cbn [andb]. now apply rstrip_slashes_dir.
Qed.

Lemma basename_of_file dir file :
  has_char "/" file = false ->
  os_path_basename (dir ++ "/" ++ file)%string = file.
Proof.
  intros Hf. unfold os_path_basename. now rewrite split_at_the_slash.
Qed.

Lemma before_first_dot_of_name name rest :
  has_char "." name = false ->
  before_first_dot (name ++ "." ++ rest)%string = name.
Proof.
  induction name as [| c name IH]; [reflexivity |]. cbn [has_char].
  intros H. apply orb_false_iff in H. destruct H as [Hc Hn].
  cbn [String.append before_first_dot] in *. now rewrite Hc, IH.
Qed.

(** ** The source file *)

Lemma print_choices_writes files :
  forall idx c,
    exists lines,
      print_choices idx files c
      = (Done tt, mkConsole (stdin c) (stdout c ++ lines)).
Proof.
  induction files as [| file files IH]; intros idx c.
  - exists []. unfold print_choices, io_ret. rewrite app_nil_r.
    now destruct c.
  - cbn [print_choices]. unfold io_bind, py_print.
    destruct (IH (S idx)
                (mkConsole (stdin c)
                   (stdout c
                    ++ [("[" ++ NilEmpty.string_of_uint (Nat.to_uint idx)
                         ++ "] " ++ file)%string])))
      as [lines E].
    rewrite E. cbn [stdin stdout]. eexists. rewrite <- app_assoc.
    reflexivity.
Qed.

Lemma list_getitem_in_range {A} (l : list A) (i : Z) :
  (- Z.of_nat (List.length l) <= i < Z.of_nat (List.length l))%Z ->
  exists x,
    list_getitem l i = Some x /\
    nth_error l (Z.to_nat (i mod Z.of_nat (List.length l))) = Some x.
Proof.
  intros H. unfold list_getitem.
  set (n := Z.of_nat (List.length l)) in *.
  assert (Hsome : forall j, (0 <= j < n)%Z ->
                            exists x, nth_error l (Z.to_nat j) = Some x).
  { intros j Hj. destruct (nth_error l (Z.to_nat j)) as [x |] eqn:E.
    - now exists x.
    - apply nth_error_None in E. subst n. lia. }
  destruct (Z.leb_spec 0 i) as [Hpos | Hneg].
  - destruct (Z.ltb_spec i n) as [Hlt | Hge]; [| lia]. cbn [andb].
    rewrite Z.mod_small by lia. destruct (Hsome i) as [x E]; [lia |].
    now exists x.
  - cbn [andb].
    destruct (Z.leb_spec (- n) i) as [Hlo | Hlo]; [| lia].
    destruct (Z.ltb_spec i 0) as [Hlt | Hge]; [| lia]. cbn [andb].
    assert (Hmod : (i mod n = n + i)%Z).
    { symmetry. apply (Z.mod_unique_pos i n (-1)); lia. }
    rewrite Hmod. destruct (Hsome (n + i)%Z) as [x E]; [lia |].
    now exists x.
Qed.

Lemma list_getitem_out_of_range {A} (l : list A) (i : Z) :
  (i < - Z.of_nat (List.length l) \/ Z.of_nat (List.length l) <= i)%Z ->
  list_getitem l i = None.
Proof.
  intros H. unfold list_getitem.
  destruct (Z.leb_spec 0 i); destruct (Z.ltb_spec i (Z.of_nat (List.length l)));
    destruct (Z.leb_spec (- Z.of_nat (List.length l)) i);
    destruct (Z.ltb_spec i 0); cbn [andb]; try reflexivity; lia.
Qed.

(** X12: when the folder holds no file with the json suffix,
    [get_input_file] prints a message and exits without reading anything;
    when it holds exactly one, that name is returned as it is, not joined
    with the folder as a name chosen among several is, so that it differs
    from the path of the file whenever the folder is not the empty path. *)
Theorem folder_with_at_most_one_json_file :
  forall listing input_dir c,
    (find_files listing = [] ->
     get_input_file int_of_str (find_files listing) input_dir c
     = (Stop SystemExit,
        mkConsole (stdin c) (stdout c ++ ["No files found"]))) /\
    (forall file,
        find_files listing = [file] ->
        get_input_file int_of_str (find_files listing) input_dir c
        = (Done file, c) /\
        (input_dir <> EmptyString ->
         String.prefix "/" file = false ->
         os_path_join input_dir file <> file)).
Proof.
  intros. split.
  - intros ->. reflexivity.
  - intros file ->. split; [reflexivity |].
    intros Hd Hp Heq.
    assert (Hlen : String.length (os_path_join input_dir file)
                   = String.length file) by now rewrite Heq.
    unfold os_path_join in Hlen. rewrite Hp in Hlen.
    destruct input_dir as [| c0 d]; [now elim Hd |].
    destruct (String.eqb (String c0 d) "" || ends_with "/" (String c0 d));
      rewrite ?string_length_app in Hlen; cbn in Hlen; lia.
Qed.

(** X13: among several files the one at the typed index is chosen, with
    the indexing of Python lists, where a negative index counts from the
    end, and the result is that name joined with the folder; an index
    outside [-n, n) raises [IndexError]. *)
Theorem file_is_chosen_by_index :
  forall json_files input_dir typed rest written i,
    2 <= List.length json_files ->
    int_of_str typed = Some i ->
    let n := Z.of_nat (List.length json_files) in
    ((- n <= i < n)%Z ->
     exists file written',
       nth_error json_files (Z.to_nat (i mod n)) = Some file /\
       get_input_file int_of_str json_files input_dir
         (mkConsole (typed :: rest) written)
       = (Done (os_path_join input_dir file), mkConsole rest written')) /\
    ((i < - n \/ n <= i)%Z ->
     fst (get_input_file int_of_str json_files input_dir
            (mkConsole (typed :: rest) written))
     = Stop ListIndexError).
Proof.
  intros * Hlen Hint n.
  destruct json_files as [| f1 [| f2 more]]; cbn in Hlen; try lia.
  set (files := f1 :: f2 :: more) in *.
  destruct (print_choices_writes files 0
              (mkConsole (typed :: rest)
                 (written ++ ["Choose the file to use as source file:"])))
    as [lines Ep].
  assert (E : get_input_file int_of_str files input_dir
                (mkConsole (typed :: rest) written)
              = (match list_getitem files i with
                 | Some file => Done (os_path_join input_dir file)
                 | None => Stop ListIndexError
                 end,
                 mkConsole rest
                   (((written ++ ["Choose the file to use as source file:"])
                     ++ lines) ++ ["Type file number: "]))).
  { unfold get_input_file. subst files.
    cbv beta iota delta [io_bind py_print]. cbn [stdin stdout].
    rewrite Ep. cbv beta iota delta [py_input]. cbn [stdin stdout].
    rewrite Hint.
    destruct (list_getitem (f1 :: f2 :: more) i); reflexivity. }
  split.
  - intros Hi. destruct (list_getitem_in_range files i Hi) as [x [G N]].
    exists x. eexists. split; [exact N |]. rewrite E, G. reflexivity.
  - intros Hi. rewrite E, (list_getitem_out_of_range files i Hi).
    reflexivity.
Qed.

(** ** The output file *)

(** X14: the path [get_output_file] returns always ends with [".json"],
    whether the name comes from [--output], from the locale, or is typed
    after a refusal to override. *)
Theorem output_path_ends_with_json :
  forall output lang_code input_file auto_override c path c',
    get_output_file str_lower path_exists output lang_code input_file
      auto_override c = (Done path, c') ->
    ends_with ".json" path = true.
Proof.
  intros * E. unfold get_output_file in E.
  destruct (arg_is_True auto_override && path_exists _).
  - unfold io_bind, py_input in E.
    destruct (stdin c) as [| answer lines]; [discriminate |].
    destruct (negb (existsb (String.eqb (str_lower answer)) ["y"; "yes"])).
    + cbn [stdin stdout] in E.
      destruct lines as [| name lines]; [discriminate |].
      inversion E. apply ends_with_join, with_json_suffix_ends.
    + inversion E. apply ends_with_join, with_json_suffix_ends.
  - inversion E. apply ends_with_join, with_json_suffix_ends.
Qed.

(** X15: without the override question, for a source file [dir/file] and
    an output name that is not an absolute path, the output path is
    [dir/name], with [".json"] appended to the name unless it ends with it:
    the output is written next to the source file. *)
Theorem output_is_next_to_the_source :
  forall dir file name lang_code auto_override c,
    dir <> EmptyString ->
    ends_with "/" dir = false ->
    has_char "/" file = false ->
    name <> EmptyString ->
    String.prefix "/" name = false ->
    arg_is_True auto_override = false ->
    get_output_file str_lower path_exists (Some name) lang_code
      (dir ++ "/" ++ file)%string auto_override c
    = (Done (dir ++ "/" ++ with_json_suffix name)%string, c).
Proof.
  intros * Hd He Hf Hn Hp Ha. unfold get_output_file. rewrite Ha.
  cbn [andb]. rewrite dirname_of_file by assumption.
  destruct name as [| c0 name]; [now elim Hn |].
  cbn [String.eqb]. unfold os_path_join.
  assert (Hp' : String.prefix "/" (with_json_suffix (String c0 name))
                = false).
  { unfold with_json_suffix.
    destruct (ends_with ".json" (String c0 name)); [exact Hp |].
    cbn [String.append String.prefix] in *. destruct (ascii_dec "/" c0);
      [destruct name; discriminate Hp | reflexivity]. }
  rewrite Hp', He.
  destruct dir as [| d0 dir]; [now elim Hd |]. reflexivity.
Qed.

(** X16: the options declared with [type=bool] and [nargs="+"] cannot be
    switched from the command line: whatever texts follow [--cache] the
    value is true in a test, so the cache stays enabled, and whatever
    texts follow [--override] the value is not equal to [True], so
    [get_output_file] never asks before overriding. *)
Theorem boolean_options_have_no_effect :
  forall given,
    arg_truthy (bool_option true given) = true /\
    forall output lang_code input_file c,
    exists name,
      get_output_file str_lower path_exists output lang_code input_file
        (bool_option false given) c
      = (Done (os_path_join (os_path_dirname input_file)
                 (with_json_suffix name)), c).
Proof.
  intros given. split.
  - destruct given as [[first others] |]; reflexivity.
  - intros. unfold get_output_file.
    assert (H : arg_is_True (bool_option false given) = false)
      by (destruct given as [[first others] |]; reflexivity).
    rewrite H. cbn [andb]. eexists. reflexivity.
Qed.

(** ** The target language *)

Lemma ask_lang_code_found rejected :
  forall lang_code lines code rest written,
    lang_code :: lines = rejected ++ code :: rest ->
    forallb (fun s => negb (Nat.eqb (str_len s) 2)) rejected = true ->
    str_len code = 2 ->
    ask_lang_code lang_code lines written
    = (Done code,
       mkConsole rest
         (written
          ++ repeat "Language code to translate to (2 letters): "
               (List.length rejected))).
Proof.
  induction rejected as [| r rejected IH];
    intros lang_code lines code rest written E Hr Hc.
  - cbn [app] in E. inversion E; subst.
    destruct rest; cbn [ask_lang_code]; rewrite Hc;
      cbn [Nat.eqb List.length repeat]; now rewrite app_nil_r.
  - cbn [app] in E. inversion E; subst. cbn [forallb] in Hr.
    apply andb_true_iff in Hr. destruct Hr as [Hr0 Hr].
    apply negb_true_iff in Hr0.
    destruct rejected as [| r' rejected]; cbn [app ask_lang_code];
      rewrite Hr0.
    + rewrite (IH code rest code rest _ eq_refl eq_refl Hc).
      cbn [List.length repeat]. now rewrite <- app_assoc.
    + rewrite (IH r' (rejected ++ code :: rest) code rest _ eq_refl Hr Hc).
      cbn [List.length repeat]. now rewrite <- app_assoc.
Qed.

Lemma ask_lang_code_not_found lines :
  forall lang_code written,
    forallb (fun s => negb (Nat.eqb (str_len s) 2)) (lang_code :: lines)
    = true ->
    ask_lang_code lang_code lines written
    = (Stop EOFError,
       mkConsole []
         (written
          ++ repeat "Language code to translate to (2 letters): "
               (S (List.length lines)))).
Proof.
  induction lines as [| line lines IH]; intros lang_code written H;
    cbn [forallb] in H; apply andb_true_iff in H; destruct H as [H0 H];
    apply negb_true_iff in H0; cbn [ask_lang_code]; rewrite H0.
  - reflexivity.
  - rewrite IH by exact H. cbn [List.length repeat].
    now rewrite <- app_assoc.
Qed.

(** X17: [get_target_lang_code] returns the first text of two code points
    among the locale given and the lines typed after it, having asked once
    for each text it rejected and left the later lines unread; a locale of
    two code points is returned without a question; when no text has two
    code points the input ends and [EOFError] is raised.  The length is
    that of [len]: a letter outside ASCII counts for one, whatever the
    number of its bytes. *)
Theorem first_code_of_two_letters :
  forall locale c,
    let given := match locale with Some l => l | None => EmptyString end in
    (forall rejected code rest,
        given :: stdin c = rejected ++ code :: rest ->
        forallb (fun s => negb (Nat.eqb (str_len s) 2)) rejected
        = true ->
        str_len code = 2 ->
        get_target_lang_code locale c
        = (Done code,
           mkConsole rest
             (stdout c
              ++ repeat "Language code to translate to (2 letters): "
                   (List.length rejected)))) /\
    (forallb (fun s => negb (Nat.eqb (str_len s) 2))
       (given :: stdin c) = true ->
     fst (get_target_lang_code locale c) = Stop EOFError).
Proof.
  intros locale c given. split.
  - intros * E Hr Hc. unfold get_target_lang_code.
    now apply ask_lang_code_found.
  - intros H. unfold get_target_lang_code.
    now rewrite ask_lang_code_not_found.
Qed.

(** X18: the test that refuses to translate a file into its own language
    compares the locale, case folded by [str.lower], with the name of the
    source file up to its first dot only: [en.json] and [en.old.json] in
    any folder both count as [en]. *)
Theorem same_language_reads_the_first_dot :
  forall dir name rest lang_code,
    has_char "/" name = false ->
    has_char "." name = false ->
    has_char "/" rest = false ->
    same_language str_lower lang_code (dir ++ "/" ++ name ++ "." ++ rest)
    = String.eqb (str_lower lang_code) (str_lower name).
Proof.
  intros * Hn Hd Hr. unfold same_language.
  rewrite basename_of_file.
  - now rewrite before_first_dot_of_name.
  - clear Hd. induction name as [| c name IH]; cbn [String.append has_char].
    + exact Hr.
    + cbn [has_char] in Hn. apply orb_false_iff in Hn.
      destruct Hn as [Hc Hn]. rewrite Hc. now apply IH.
Qed.

End Console.

(** * The properties at concrete runs *)

(** The scenarios of the specification. *)
Example scenario_translate :
  iterate_translate spanish no_str accepted auth_key
    (JDict [("greeting", JStr "Hello"); ("count", JInt 3);
            ("flag", JBool true)])
    "ES" off [] [] (JDict []) (Some true) fresh
  = (Ok (JDict [("greeting", JStr "Hola"); ("count", JInt 3);
                ("flag", JBool true)]),
     mkState (JDict []) [Sleep off; Request "ES" "Hello"]).
Proof. reflexivity. Qed.

Example scenario_skip :
  fst (iterate_translate spanish no_str accepted auth_key
         (JDict [("secret_code", JStr "XJ-42"); ("name", JStr "World")])
         "ES" off ["secret_code"] [] (JDict []) (Some true) fresh)
  = Ok (JDict [("secret_code", JStr "XJ-42"); ("name", JStr "Mundo")]).
Proof. reflexivity. Qed.

Example scenario_keep :
  iterate_translate spanish no_str accepted auth_key
    (JDict [("name", JStr "World")])
    "ES" off [] ["name"] (JDict [("name", JStr "Mundo")]) (Some true) fresh
  = (Ok (JDict [("name", JStr "Mundo")]), fresh).
Proof. reflexivity. Qed.

(** [skip_precedence] at a run where the skipped key is also in the keep
    list, in the existing output document and in the process cache. *)
Lemma skip_precedence_witness :
  (exists res,
      JDict [("secret_code", JStr "XJ-42"); ("name", JStr "Mundo")]
      = JDict res /\
      dict_get res "secret_code" = Some (JStr "XJ-42")) /\
  same_effect
    (iterate_translate spanish no_str accepted auth_key
       (JDict ([("name", JStr "World")] ++ [("secret_code", JStr "XJ-42")]))
       "ES" off ["secret_code"] ["secret_code"]
       (JDict [("secret_code", JStr "kept")]) (Some true)
       (mkState (JDict [("secret_code", JStr "cached")]) []))
    (iterate_translate spanish no_str accepted auth_key
       (JDict ([("name", JStr "World")] ++ [("secret_code", JStr "Hello")]))
       "ES" off ["secret_code"] ["secret_code"]
       (JDict [("secret_code", JStr "kept")]) (Some true)
       (mkState (JDict [("secret_code", JStr "cached")]) [])).
Proof.
  pose proof (skip_precedence spanish no_str accepted auth_key "ES" off
                ["secret_code"] ["secret_code"]
                (JDict [("secret_code", JStr "kept")]) (Some true)
                "secret_code" eq_refl) as [H1 H2].
  split.
  - apply (H1 [("secret_code", JStr "XJ-42"); ("name", JStr "World")]
              (JStr "XJ-42")
              (mkState (JDict [("secret_code", JStr "cached")]) [])
              _
              (mkState (JDict [("secret_code", JStr "cached")])
                 [Sleep off; Request "ES" "World"]));
      reflexivity.
  - apply (H2 [("name", JStr "World")] [] (JStr "XJ-42") (JStr "Hello")).
Defined.

(** [keep_precedence] at the third scenario of the specification, with a
    second key that is translated. *)
Lemma keep_precedence_witness :
  (exists res,
      JDict [("title", JStr "Hola"); ("name", JStr "Mundo")] = JDict res /\
      dict_get res "name" = Some (JStr "Mundo")) /\
  iterate_translate spanish no_str accepted auth_key
    (JDict ([("title", JStr "Hello")] ++ [("name", JStr "World")]))
    "ES" off [] ["name"] (JDict [("name", JStr "Mundo")]) (Some true) fresh
  = iterate_translate spanish no_str accepted auth_key
      (JDict ([("title", JStr "Hello")] ++ [("name", JList [JStr "Earth"])]))
      "ES" off [] ["name"] (JDict [("name", JStr "Mundo")]) (Some true) fresh.
Proof.
  pose proof (keep_precedence spanish no_str accepted auth_key
                "ES" off [] ["name"]
                [("name", JStr "Mundo")] (Some true) "name" (JStr "Mundo")
                eq_refl eq_refl eq_refl eq_refl eq_refl) as [H1 H2].
  split.
  - apply (H1 [("title", JStr "Hello"); ("name", JStr "World")] (JStr "World")
             fresh _ (mkState (JDict []) [Sleep off; Request "ES" "Hello"]));
      reflexivity.
  - apply (H2 [("title", JStr "Hello")] [] (JStr "World")
             (JList [JStr "Earth"]) fresh).
Defined.

(** [existing_is_not_descended] below a key and an array element: the
    existing document holds ["nested"] along the same path and ["top"] at
    its top level. *)
Lemma existing_is_not_descended_witness :
  iterate_translate spanish no_str accepted auth_key
    (JDict [("menu", JList [JDict [("name", JStr "World")]])])
    "ES" off [] ["name"]
    (JDict [("name", JStr "top");
            ("menu", JList [JDict [("name", JStr "nested")]])])
    (Some true) fresh
  = (Ok (JDict [("menu", JList [JDict [("name", JStr "top")]])]), fresh).
Proof.
  apply (existing_is_not_descended spanish no_str accepted auth_key
           "ES" off [] ["name"]
           [("name", JStr "top");
            ("menu", JList [JDict [("name", JStr "nested")]])]
           (Some true) [Key "menu"; Elem] "name" (JStr "World") (JStr "top")
           fresh);
    reflexivity.
Defined.

(** [http_error_aborts_the_run] for a document of two entries: the
    service refuses the text below the first key, the second entry is not
    reached and [main] saves nothing. *)
Lemma http_error_aborts_the_run_witness :
  translate_string refusing no_str accepted auth_key (JStr "Hello") "ES" off
    (Some true) fresh
  = (Raise (HTTPError 456),
     mkState (JDict []) ([] ++ [Sleep off; Request "ES" "Hello"])) /\
  (forall existing,
      iterate_translate refusing no_str accepted auth_key
        (JDict [("menu", JList [JDict [("title", JStr "Hello")]]);
                ("b", JStr "World")])
        "ES" off [] [] existing (Some true) fresh
      = (Raise (HTTPError 456),
         mkState (JDict []) ([] ++ [Sleep off; Request "ES" "Hello"]))) /\
  main refusing no_str accepted auth_key
    (JDict [("menu", JList [JDict [("title", JStr "Hello")]]);
            ("b", JStr "World")])
    "ES" off None None None (mkDisk None None) fresh
  = (Raise (HTTPError 456),
     mkState (JDict []) ([] ++ [Sleep off; Request "ES" "Hello"])).
Proof.
  pose proof (http_error_aborts_the_run refusing no_str accepted auth_key
                "ES" off [] [] (Some true) fresh [Elem; Key "title"]
                "Hello" 456 "menu" [("b", JStr "World")]
                eq_refl eq_refl eq_refl eq_refl eq_refl eq_refl) as H.
  cbv zeta in H. destruct H as [H1 [H2 H3]].
  split; [exact H1 | split; [exact H2 |]].
  apply (H3 None None None (mkDisk None None) fresh); reflexivity.
Defined.

(** The run of the program over a document whose first text is refused:
    the exception ends it after the first request, the second text is not
    sent and no file is written. *)
Example refused_request_stops_the_run :
  run refusing no_str accepted auth_key
    (JDict [("menu", JList [JDict [("title", JStr "Hello")]]);
            ("b", JStr "World")])
    "ES" off None None None (mkDisk None None) []
  = (Raise (HTTPError 456), [Sleep off; Request "ES" "Hello"]).
Proof. reflexivity. Qed.

(** A run with the service [unreliable]: the two leaves whose failure the
    response reports keep the source text, the third is translated, and
    each failure is printed. *)
Example failures_leave_source_text :
  iterate_translate unreliable no_str accepted auth_key
    (JDict [("a", JStr "Hello"); ("b", JList [JStr "World"; JStr "Good"])])
    "ES" off [] ["a"] (JDict []) (Some true) fresh
  = (Ok (JDict [("a", JStr "Hello");
                ("b", JList [JStr "World"; JStr "Bien"])]),
     mkState (JDict [])
       [Sleep off; Request "ES" "Hello"; PrintErrorStatus "Hello" 204;
        Sleep off; Request "ES" "World";
        PrintErrorEmpty "World" (JDict [("message", JStr "Quota exceeded")]);
        Sleep off; Request "ES" "Good"]).
Proof. reflexivity. Qed.



(** C4 as stated fails on its second half: the process cache is not
    written during a run, so a source string that stands at two keys is
    sent twice. *)
Lemma repeated_string_is_sent_twice :
  ~ (forall text,
        live_calls text
          (snd (run spanish no_str accepted auth_key
                  (JDict [("a", JStr "Hello"); ("b", JStr "Hello")])
                  "ES" off None None None (mkDisk None None) []))
        <= 1).
Proof.
  intros H. specialize (H "Hello"). vm_compute in H. lia.
Qed.

(** [warm_cache_rerun_makes_no_live_call] after the run above, and for a
    second translation of a text already sent once. *)
Lemma warm_cache_rerun_makes_no_live_call_witness :
  (exists d2,
      run spanish no_str accepted auth_key
        (JDict [("a", JStr "Hello"); ("b", JStr "Hello")])
        "ES" off None (Some ["a"]) None
        (mkDisk (Some (JDict [("a", JStr "Hola"); ("b", JStr "Hola")]))
                (Some (JDict [("a", JStr "Hola"); ("b", JStr "Hola")])))
        [Sleep off; Request "ES" "Hello"; Sleep off; Request "ES" "Hello";
         PrintResultsSaved]
      = (Ok d2,
         [Sleep off; Request "ES" "Hello"; Sleep off; Request "ES" "Hello";
          PrintResultsSaved] ++ [PrintResultsSaved]))
  /\
  live_calls "Hello"
    (trace (snd (translate_string spanish no_str accepted auth_key
                   (JStr "Hello")
                   "ES" off
                   (Some true)
                   (mkState (JDict []) [Sleep off; Request "ES" "Hello"]))))
  = S (live_calls "Hello"
         (trace (mkState (JDict []) [Sleep off; Request "ES" "Hello"]))).
Proof.
  pose proof (warm_cache_rerun_makes_no_live_call spanish no_str accepted
                auth_key "ES" off)
    as [H1 [_ H3]].
  split.
  - apply (H1 [("a", JStr "Hello"); ("b", JStr "Hello")] None None
              (mkDisk None None) []
              (mkDisk (Some (JDict [("a", JStr "Hola"); ("b", JStr "Hola")]))
                      (Some (JDict [("a", JStr "Hola"); ("b", JStr "Hola")])))
              [Sleep off; Request "ES" "Hello"; Sleep off;
               Request "ES" "Hello"; PrintResultsSaved]
              None (Some ["a"])
              [Sleep off; Request "ES" "Hello"; Sleep off;
               Request "ES" "Hello"; PrintResultsSaved]);
      reflexivity.
  - apply (H3 "Hello" (Some true)
              (mkState (JDict []) [Sleep off; Request "ES" "Hello"]));
      reflexivity.
Defined.

(** C1 as stated fails: a key that is in the process cache takes the cached
    value, here a string in the place of the number 3. *)
Lemma shape_not_preserved_by_cache :
  iterate_translate spanish no_str accepted auth_key
    (JDict [("a", JInt 3)]) "ES" off
    [] []
    (JDict []) (Some true) (mkState (JDict [("a", JStr "x")]) [])
  = (Ok (JDict [("a", JStr "x")]), mkState (JDict [("a", JStr "x")]) []) /\
  same_shape (JDict [("a", JInt 3)]) (JDict [("a", JStr "x")]) = false.
Proof. split; reflexivity. Qed.

(** [shape_preserved_without_substitution] at a run with a skipped
    subtree, a translated leaf and a leaf answered by the process cache. *)
Lemma shape_preserved_without_substitution_witness :
  same_shape
    (JDict [("greeting", JStr "Hello"); ("count", JInt 3);
            ("tags", JList [JStr "World"; JNull; JBool true]);
            ("code", JDict [("id", JStr "XJ-42")])])
    (JDict [("greeting", JStr "Hola"); ("count", JInt 3);
            ("tags", JList [JStr "Mundo"; JNull; JBool true]);
            ("code", JDict [("id", JStr "XJ-42")])])
  = true.
Proof.
  apply (shape_preserved_without_substitution spanish no_str accepted auth_key
           "ES" off
           ["code"] ["id"] (JDict []) (Some true)
           (JDict [("greeting", JStr "Hello"); ("count", JInt 3);
                   ("tags", JList [JStr "World"; JNull; JBool true]);
                   ("code", JDict [("id", JStr "XJ-42")])])
           (mkState (JDict [("World", JStr "Mundo")]) [])
           _
           (mkState (JDict [("World", JStr "Mundo")])
              [Sleep off; Request "ES" "Hello";
               PrintUsingCache "World" (JStr "Mundo")]));
    reflexivity.
Defined.

(** * The further properties at concrete runs *)

(** [node_keeps_keys_and_length] at an object whose value is replaced by
    the process cache, and at an array. *)
Lemma node_keeps_keys_and_length_witness :
  (exists res,
      JDict [("a", JList [JStr "x"; JStr "y"])] = JDict res /\
      keys res = keys [("a", JInt 3)]) /\
  (exists r,
      JList [JStr "Hola"; JInt 1] = JList r /\
      List.length r = List.length [JStr "Hello"; JInt 1]).
Proof.
  split.
  - apply (proj1 (node_keeps_keys_and_length spanish no_str accepted auth_key
                    "ES"
                    off [] [] (JDict []) (Some true)
                    (mkState (JDict [("a", JList [JStr "x"; JStr "y"])]) [])
                    (JDict [("a", JList [JStr "x"; JStr "y"])])
                    (mkState (JDict [("a", JList [JStr "x"; JStr "y"])]) []))
             [("a", JInt 3)]);
      reflexivity.
  - apply (proj2 (node_keeps_keys_and_length spanish no_str accepted auth_key
                    "ES"
                    off [] [] (JDict []) (Some true) fresh
                    (JList [JStr "Hola"; JInt 1])
                    (mkState (JDict []) [Sleep off; Request "ES" "Hello"]))
             [JStr "Hello"; JInt 1]);
      reflexivity.
Defined.

(** [cache_rule_precedence] with the cache argument [None]. *)
Lemma cache_rule_precedence_witness :
  (exists res,
      JDict [("name", JStr "Mundo")] = JDict res /\
      dict_get res "name" = Some (JStr "Mundo")) /\
  iterate_translate spanish no_str accepted auth_key
    (JDict ([] ++ [("name", JStr "World")]))
    "ES" off [] [] (JDict []) None
    (mkState (JDict [("name", JStr "Mundo")]) [])
  = iterate_translate spanish no_str accepted auth_key
      (JDict ([] ++ [("name", JDict [("first", JStr "Hello")])]))
      "ES" off [] [] (JDict []) None
      (mkState (JDict [("name", JStr "Mundo")]) []).
Proof.
  pose proof (cache_rule_precedence spanish no_str accepted auth_key
                "ES" off [] []
                (JDict []) None [("name", JStr "Mundo")] "name"
                (JStr "Mundo") eq_refl eq_refl eq_refl) as [H1 H2].
  split.
  - apply (H1 [("name", JStr "World")] (JStr "World")
              (mkState (JDict [("name", JStr "Mundo")]) []) _
              (mkState (JDict [("name", JStr "Mundo")]) []));
      reflexivity.
  - apply (H2 [] [] (JStr "World") (JDict [("first", JStr "Hello")])
              (mkState (JDict [("name", JStr "Mundo")]) [])).
    reflexivity.
Defined.

(** [keep_needs_an_existing_document] when the output file is absent. *)
Lemma keep_needs_an_existing_document_witness :
  get_strings_from_file spanish no_str accepted auth_key
    (JDict [("name", JStr "World")]) None "ES" off None (Some ["name"])
    (Some true) fresh
  = get_strings_from_file spanish no_str accepted auth_key
      (JDict [("name", JStr "World")]) None "ES" off None None
      (Some true) fresh.
Proof.
  apply (keep_needs_an_existing_document spanish no_str accepted auth_key
           (JDict [("name", JStr "World")]) None "ES" off None
           (Some ["name"]) (Some true) fresh).
  reflexivity.
Defined.

(** [keep_ignores_null_and_empty] for an existing value [None]. *)
Lemma keep_ignores_null_and_empty_witness :
  iterate_translate spanish no_str accepted auth_key
    (JDict [("name", JStr "World")]) "ES" off [] ["name"]
    (JDict [("name", JNull)]) (Some true) fresh
  = iterate_translate spanish no_str accepted auth_key
      (JDict [("name", JStr "World")]) "ES" off []
      (filter (fun k' => negb (String.eqb k' "name")) ["name"])
      (JDict [("name", JNull)]) (Some true) fresh.
Proof.
  apply (keep_ignores_null_and_empty spanish no_str accepted auth_key
           "ES" off []
           ["name"] [("name", JNull)] (Some true) "name" JNull
           (JDict [("name", JStr "World")]) fresh);
    reflexivity.
Defined.

(** [cached_text_is_not_sent] for a text of the process cache. *)
Lemma cached_text_is_not_sent_witness :
  translate_string spanish no_str accepted auth_key (JStr "Hello") "ES" off
    (Some true) (mkState (JDict [("Hello", JStr "Salut")]) [])
  = (Ok (JStr "Salut"),
     mkState (GLOBAL_CACHE (mkState (JDict [("Hello", JStr "Salut")]) []))
       (trace (mkState (JDict [("Hello", JStr "Salut")]) [])
        ++ [PrintUsingCache "Hello" (JStr "Salut")])) /\
  live_calls "Hello"
    (trace (snd (translate_string spanish no_str accepted auth_key
                   (JStr "Hello") "ES" off None
                   (mkState (JDict [("Hello", JStr "Salut")]) []))))
  = S (live_calls "Hello"
         (trace (mkState (JDict [("Hello", JStr "Salut")]) []))).
Proof.
  destruct (cached_text_is_not_sent spanish no_str accepted auth_key
              "Hello" "ES" off true (JStr "Salut")
              (mkState (JDict [("Hello", JStr "Salut")]) []) eq_refl)
    as [H1 H2].
  split; [exact H1 | apply H2; reflexivity].
Defined.

(** [reported_failure_leaves_the_source_text] with the service [failing],
    for a text answered by the status 204 and for a document with a
    skipped key, an array and a number. *)
Lemma reported_failure_leaves_the_source_text_witness :
  translate_string failing no_str accepted auth_key (JStr "Hello") "ES" off
    (Some true) fresh
  = (Ok (JStr "Hello"),
     mkState (GLOBAL_CACHE fresh)
       (trace fresh ++ [Sleep off; Request "ES" "Hello";
                        PrintErrorStatus "Hello" 204])) /\
  fst (iterate_translate failing no_str accepted auth_key
         (JDict [("a", JStr "Hello"); ("b", JList [JStr "World"; JInt 3]);
                 ("c", JStr "Good")])
         "ES" off ["c"] [] (JDict []) (Some true) fresh)
  = Ok (JDict [("a", JStr "Hello"); ("b", JList [JStr "World"; JInt 3]);
               ("c", JStr "Good")]).
Proof.
  destruct (reported_failure_leaves_the_source_text failing no_str accepted
              auth_key "ES" off (Some true) eq_refl) as [H1 H2].
  split.
  - apply (H1 "Hello" fresh (PrintErrorStatus "Hello" 204)); reflexivity.
  - apply (H2 ["c"] [] (JDict [])
              (JDict [("a", JStr "Hello");
                      ("b", JList [JStr "World"; JInt 3]);
                      ("c", JStr "Good")]) fresh); try reflexivity.
    intros h s. unfold failing.
    destruct (String.eqb s "Hello"); discriminate.
Defined.

(** [first_candidate_is_returned] for a response with two candidates. *)
Lemma first_candidate_is_returned_witness :
  translate_string
    (fun _ _ _ =>
       Response 200
         (Some (JDict [("translations",
                        JList [JDict [("text", JStr "Hola")];
                               JDict [("text", JStr "Buenas")]])])))
    no_str accepted auth_key (JStr "Hello") "ES" off (Some true) fresh
  = (Ok (JStr (decode_text no_str (JStr "Hola"))),
     mkState (GLOBAL_CACHE fresh)
       (trace fresh
        ++ [Sleep off; Request "ES" "Hello"]
        ++ [PrintMoreThanOne "Hello"
              (JList [JDict [("text", JStr "Hola")];
                      JDict [("text", JStr "Buenas")]])])).
Proof.
  apply (first_candidate_is_returned
           (fun _ _ _ =>
              Response 200
                (Some (JDict [("translations",
                               JList [JDict [("text", JStr "Hola")];
                                      JDict [("text", JStr "Buenas")]])])))
           no_str accepted auth_key "Hello" "ES" off (Some true) fresh
           [("translations",
             JList [JDict [("text", JStr "Hola")];
                    JDict [("text", JStr "Buenas")]])]
           [("text", JStr "Hola")] [JDict [("text", JStr "Buenas")]]
           (JStr "Hola"));
    reflexivity.
Defined.


(** A text that holds a surrogate: [translate_string] sleeps, the encoding
    of the query raises, and no request follows the sleep; the traversal
    of a document stops there. *)
Example unencodable_text_is_not_sent :
  has_surrogate lone_surrogate = true /\
  translate_string spanish no_str accepted auth_key (JStr lone_surrogate)
    "ES" off (Some true) fresh
  = (Raise UnicodeEncodeError, mkState (JDict []) [Sleep off]) /\
  iterate_translate spanish no_str accepted auth_key
    (JDict [("a", JStr "Hello"); ("b", JStr lone_surrogate);
            ("c", JStr "World")])
    "ES" off [] [] (JDict []) (Some true) fresh
  = (Raise UnicodeEncodeError,
     mkState (JDict []) [Sleep off; Request "ES" "Hello"; Sleep off]).
Proof. repeat split. Qed.

(** [len] counts code points, [encode] refuses surrogates only. *)
Example lengths_of_texts :
  str_len "fr" = 2 /\ str_len e_acute = 1 /\ str_len zhongwen = 2 /\
  str_len lone_surrogate = 1 /\
  has_surrogate e_acute = false /\ has_surrogate zhongwen = false.
Proof. repeat split. Qed.

(** [nocache_removes_the_keys] for one of two keys of the cache file. *)
Lemma nocache_removes_the_keys_witness :
  load_global_cache
    (mkDisk None (Some (JDict [("a", JStr "x"); ("b", JStr "y")])))
    (Some ["a"]) fresh
  = (Ok tt,
     mkState (JDict (pop_keys [("a", JStr "x"); ("b", JStr "y")] ["a"]))
       (trace fresh)) /\
  forall key,
    dict_get (pop_keys [("a", JStr "x"); ("b", JStr "y")] ["a"]) key
    = if str_in key ["a"] then None
      else dict_get [("a", JStr "x"); ("b", JStr "y")] key.
Proof.
  apply (proj1 (nocache_removes_the_keys
                  (mkDisk None
                     (Some (JDict [("a", JStr "x"); ("b", JStr "y")])))
                  ["a"] fresh)
           [("a", JStr "x"); ("b", JStr "y")]);
    reflexivity.
Defined.

(** [cache_file_mirrors_output] for a first run from an empty disk. *)
Lemma cache_file_mirrors_output_witness :
  exists results st0 st1,
    mkDisk (Some (JDict [("greeting", JStr "Hola")]))
      (Some (JDict [("greeting", JStr "Hola")]))
    = mkDisk (Some results) (Some results) /\
    get_strings_from_file spanish no_str accepted auth_key
      (JDict [("greeting", JStr "Hello")])
      (output_file (mkDisk None None)) "ES" off None None (Some true) st0
    = (Ok results, st1).
Proof.
  apply (cache_file_mirrors_output spanish no_str accepted auth_key
           (JDict [("greeting", JStr "Hello")]) "ES" off None None None
           (mkDisk None None) []
           (mkDisk (Some (JDict [("greeting", JStr "Hola")]))
              (Some (JDict [("greeting", JStr "Hola")])))
           [Sleep off; Request "ES" "Hello"; PrintResultsSaved]).
  reflexivity.
Defined.

(** [cache_file_is_shared_between_documents]: the key ["title"] of a
    second document takes the translation made for the first. *)
Lemma cache_file_is_shared_between_documents_witness :
  exists rA rB v,
    output_file
      (mkDisk (Some (JDict [("title", JStr "Hola")]))
         (Some (JDict [("title", JStr "Hola")])))
    = Some (JDict rA) /\
    output_file
      (mkDisk (Some (JDict [("title", JStr "Hola")]))
         (Some (JDict [("title", JStr "Hola")])))
    = Some (JDict rB) /\
    dict_get rA "title" = Some v /\ dict_get rB "title" = Some v.
Proof.
  apply (cache_file_is_shared_between_documents spanish no_str accepted auth_key
           "ES" off [("title", JStr "Hello")] None None
           (mkDisk None None) []
           (mkDisk (Some (JDict [("title", JStr "Hola")]))
              (Some (JDict [("title", JStr "Hola")])))
           [Sleep off; Request "ES" "Hello"; PrintResultsSaved]
           [("title", JStr "World")] [] None []
           (mkDisk (Some (JDict [("title", JStr "Hola")]))
              (Some (JDict [("title", JStr "Hola")])))
           [PrintResultsSaved] "title" (JStr "World"));
    try reflexivity.
  now left.
Defined.

(** [folder_with_at_most_one_json_file] for a folder with one json file. *)
Lemma folder_with_at_most_one_json_file_witness :
  get_input_file (fun _ => None) (find_files ["notes.txt"; "en.json"])
    "locales" (mkConsole [] [])
  = (Done "en.json", mkConsole [] []) /\
  ("locales" <> EmptyString ->
   String.prefix "/" "en.json" = false ->
   os_path_join "locales" "en.json" <> "en.json").
Proof.
  apply (proj2 (folder_with_at_most_one_json_file (fun _ => None)
                  ["notes.txt"; "en.json"] "locales" (mkConsole [] []))
           "en.json").
  reflexivity.
Defined.

(** [file_is_chosen_by_index] for the index [-1] among three files. *)
Lemma file_is_chosen_by_index_witness :
  exists file written',
    nth_error ["de.json"; "en.json"; "fr.json"]
      (Z.to_nat
         (-1 mod Z.of_nat (List.length ["de.json"; "en.json"; "fr.json"])))
    = Some file /\
    get_input_file
      (fun typed => if String.eqb typed "-1" then Some (-1)%Z else None)
      ["de.json"; "en.json"; "fr.json"] "locales"
      (mkConsole ["-1"] [])
    = (Done (os_path_join "locales" file), mkConsole [] written').
Proof.
  apply (proj1 (file_is_chosen_by_index
                  (fun typed =>
                     if String.eqb typed "-1" then Some (-1)%Z else None)
                  ["de.json"; "en.json"; "fr.json"] "locales" "-1" [] []
                  (-1)%Z ltac:(cbn; lia) eq_refl)).
  cbn. lia.
Defined.

(** [output_path_ends_with_json] for a name typed after a refusal. *)
Lemma output_path_ends_with_json_witness :
  ends_with ".json" "locales/spanish.json" = true.
Proof.
  apply (output_path_ends_with_json (fun s => s) (fun _ => true)
           (Some "es") "ES" "locales/en.json" (ArgBool true)
           (mkConsole ["n"; "spanish"] []) "locales/spanish.json"
           (mkConsole []
              [("File es.json already exists. "
                ++ "Do you want to override it? [Y/N] ")%string;
               "Enter the new file name: "])).
  reflexivity.
Defined.

(** [output_is_next_to_the_source] for the name ["es"]. *)
Lemma output_is_next_to_the_source_witness :
  get_output_file (fun s => s) (fun _ => true) (Some "es") "ES"
    ("locales" ++ "/" ++ "en.json")%string (ArgBools [true])
    (mkConsole [] [])
  = (Done ("locales" ++ "/" ++ with_json_suffix "es")%string,
     mkConsole [] []).
Proof.
  apply (output_is_next_to_the_source (fun s => s) (fun _ => true)
           "locales" "en.json" "es" "ES" (ArgBools [true])
           (mkConsole [] []));
    try reflexivity; discriminate.
Defined.

(** [first_code_of_two_letters] for a locale of three letters followed by
    a rejected line of one accented letter (two bytes) and an accepted
    line of two ideographs (six bytes). *)
Lemma first_code_of_two_letters_witness :
  get_target_lang_code (Some "eng") (mkConsole [e_acute; zhongwen; "de"] [])
  = (Done zhongwen,
     mkConsole ["de"]
       (stdout (mkConsole [e_acute; zhongwen; "de"] [])
        ++ repeat "Language code to translate to (2 letters): "
             (List.length ["eng"; e_acute]))).
Proof.
  apply (proj1 (first_code_of_two_letters (Some "eng")
                  (mkConsole [e_acute; zhongwen; "de"] []))
           ["eng"; e_acute] zhongwen ["de"]);
    reflexivity.
Defined.

(** [same_language_reads_the_first_dot] for [locales/en.old.json]. *)
Lemma same_language_reads_the_first_dot_witness :
  same_language (fun s => s) "en"
    ("locales" ++ "/" ++ "en" ++ "." ++ "old.json")
  = String.eqb ((fun s => s) "en") ((fun s => s) "en").
Proof.
  apply (same_language_reads_the_first_dot (fun s => s) "locales" "en"
           "old.json" "en");
    reflexivity.
Defined.
